(** * scme-tracker: the download-acquisition orchestrator

    A shallow embedding of [src/csv_scraper.py] (the coroutine
    [scrape_and_download] and its helper [setup_download_handler]) and the
    properties of the orchestrator that the specification states.

    The Python code talks to a browser through Playwright and to the file
    system through [os] and [open].  Both are modelled explicitly:

    - the file system is a finite map from paths to nodes, threaded as state;
    - every call into Playwright is answered by an oracle of the attempt (an
      [env]); an oracle either returns or raises, and an awaited operation of
      the download task may also stay pending until [asyncio.wait_for] gives
      up;
    - the calls into Playwright and into the file system are recorded, in
      program order, as events tagged with the depth of the call of
      [scrape_and_download] that made them (0 for the call of the caller, 1
      for the retry it makes); the entry into the function and the way
      [asyncio.wait_for] ended are recorded too;
    - Python's control flow ([return] inside [try], [except Exception],
      [finally], an exception escaping the function) is kept by a monad with
      four outcomes;
    - the function calls itself, so it is defined with fuel; two units are
      proved to be enough.

    [print], [asyncio.sleep] and [page.set_default_timeout] change nothing
    that is observed here and are left out. *)

From Stdlib Require Import ZArith Lia.
From stdpp Require Import base option list strings gmap.

Local Open Scope Z_scope.
Local Open Scope list_scope.

(** ** Data *)

(** A path is the list of its components; [os.path.join p name] appends one
    component.  A suggested file name is taken to be a single component,
    which is what the browser hands out. *)
Abbreviation path := (list string).

Inductive node :=
| Dir
| File (content : list Byte.byte).

Abbreviation filesystem := (gmap path node).

(** Exceptions.  [Exception msg] stands for any instance of a subclass of
    [Exception], [msg] being [str(e)].  [CancelledError] derives from
    [BaseException] only and is not caught by [except Exception]. *)
Inductive exn :=
| Exception (msg : string)
| CancelledError.

Definition str (e : exn) : string :=
  match e with
  | Exception msg => msg
  | CancelledError => EmptyString
  end.

Definition is_Exception (e : exn) : bool :=
  match e with
  | Exception _ => true
  | CancelledError => false
  end.

(** The value of [scrape_and_download]: [Tuple[bool, Optional[str]]]. *)
Abbreviation result := (bool * option string)%type.

Inductive browser_class := firefox | webkit | chromium.

Definition element := nat.

Record download := {
  suggested_filename : string;
  artifact : list Byte.byte
}.

(** A call that returns or raises. *)
Inductive res (A : Type) :=
| returns (a : A)
| raises (msg : string).
Arguments returns {A} a.
Arguments raises {A} msg.

(** An awaited operation of the download task: it resolves, it raises, or it
    is still pending when the timeout of [asyncio.wait_for] expires. *)
Inductive awaited (A : Type) :=
| resolved (a : A)
| rejected (msg : string)
| pending.
Arguments resolved {A} a.
Arguments rejected {A} msg.
Arguments pending {A}.

(** What [dest_file.write(content)] does: it writes everything, or it raises
    after [n] bytes have reached the file. *)
Inductive write_res :=
| write_all
| write_fails (n : nat) (msg : string).

(** The environment of one attempt: the answer to each external call. *)
Record env := {
  async_playwright : res unit;
  launch : browser_class -> bool -> res unit;
  new_context : res unit;
  new_page : res unit;
  goto : string -> res unit;
  wait_for_selector : string -> res (option element);
  wait_for_load_state : res unit;
  click : element -> res unit;
  wait_for_event : awaited download;
  download_path : awaited unit;
  save_as : awaited unit;
  dest_write : write_res;
  close : res unit
}.

(** The world of one call of the entry point: the working directory and the
    environment met by the call at each depth of the recursion. *)
Record world := {
  getcwd : path;
  attempt : nat -> env
}.

(** ** Events *)

Inductive action :=
| Call (headless : bool)
| AsyncPlaywright
| Makedirs (p : path)
| Launch (c : browser_class) (headless : bool)
| NewContext
| NewPage
| Goto (url : string)
| WaitForSelector (selector : string)
| WaitForLoadState
| CreateTask
| Click (e : element)
| WaitFor (timeout : Z)
| WaitForEvent
| DownloadPath
| SaveAs (p : path)
| Captured (p : path)
| TimedOut
| ReadFile (p : path)
| OpenWrite (p : path)
| Getsize (p : path) (size : Z)
| Close.

Abbreviation event := (nat * action)%type.

(** ** The monad *)

Inductive outcome (A : Type) :=
| Normal (a : A)
| Returning (r : result)
| Raising (e : exn)
| OutOfFuel.
Arguments Normal {A} a.
Arguments Returning {A} r.
Arguments Raising {A} e.
Arguments OutOfFuel {A}.

(** The state: the file system, and the local variable [browser] of the
    running call, which is unbound until [launch] has returned and which the
    [finally] clause reads. *)
Record state := {
  fs : filesystem;
  browser : option unit
}.

Definition M (A : Type) : Type := state -> outcome A * state * list event.

Definition ret {A} (a : A) : M A := fun st => (Normal a, st, []).

Definition bind {A B} (m : M A) (f : A -> M B) : M B :=
  fun st =>
    match m st with
    | (Normal a, st1, ev1) =>
        match f a st1 with
        | (o, st2, ev2) => (o, st2, ev1 ++ ev2)
        end
    | (Returning r, st1, ev1) => (Returning r, st1, ev1)
    | (Raising e, st1, ev1) => (Raising e, st1, ev1)
    | (OutOfFuel, st1, ev1) => (OutOfFuel, st1, ev1)
    end.

Declare Scope py_scope.
Delimit Scope py_scope with py.
Notation "x <- m ;; k" := (bind m (fun x => k))
  (at level 100, m at next level, right associativity) : py_scope.
Notation "m ;; k" := (bind m (fun _ => k))
  (at level 100, right associativity) : py_scope.
Local Open Scope py_scope.

(** [return r] *)
Definition return_ {A} (r : result) : M A := fun st => (Returning r, st, []).

(** [raise e] *)
Definition raise {A} (e : exn) : M A := fun st => (Raising e, st, []).

Definition out_of_fuel {A} : M A := fun st => (OutOfFuel, st, []).

Definition emit (d : nat) (a : action) : M unit := fun st => (Normal tt, st, [(d, a)]).

(** [try: m  except Exception as e: h e] *)
Definition try_except {A} (m : M A) (h : exn -> M A) : M A :=
  fun st =>
    match m st with
    | (Raising e, st1, ev1) =>
        if is_Exception e then
          match h e st1 with
          | (o, st2, ev2) => (o, st2, ev1 ++ ev2)
          end
        else (Raising e, st1, ev1)
    | x => x
    end.

(** [try: m  finally: fin].  The clause runs on every way out of [m]; when it
    completes, the outcome of [m] stands. *)
Definition try_finally {A} (m : M A) (fin : M unit) : M A :=
  fun st =>
    match m st with
    | (OutOfFuel, st1, ev1) => (OutOfFuel, st1, ev1)
    | (o, st1, ev1) =>
        match fin st1 with
        | (Normal _, st2, ev2) => (o, st2, ev1 ++ ev2)
        | (Returning r, st2, ev2) => (Returning r, st2, ev1 ++ ev2)
        | (Raising e, st2, ev2) => (Raising e, st2, ev1 ++ ev2)
        | (OutOfFuel, st2, ev2) => (OutOfFuel, st2, ev1 ++ ev2)
        end
    end.

(** A call of a Python function whose body is [body]: the callee runs in a
    frame of its own, where [browser] is unbound; what it returns is the
    value of the call; the caller's frame is back afterwards.  The body has
    type [M Empty_set]: it cannot fall off its end. *)
Definition call (body : M Empty_set) : M result :=
  fun st =>
    match body {| fs := fs st; browser := None |} with
    | (o, st1, ev1) =>
        (match o with
         | Normal a => match a with end
         | Returning r => Normal r
         | Raising e => Raising e
         | OutOfFuel => OutOfFuel
         end,
         {| fs := fs st1; browser := browser st |}, ev1)
    end.

(** An external call: recorded, then answered by the oracle. *)
Definition extern {A} (d : nat) (a : action) (r : res A) : M A :=
  emit d a ;;
  match r with
  | returns v => ret v
  | raises msg => raise (Exception msg)
  end.

(** An awaited operation inside the download task.  A task that is still
    suspended when [asyncio.wait_for] gives up is cancelled: the await
    raises [CancelledError] in the task. *)
Definition await {A} (d : nat) (a : action) (r : awaited A) : M A :=
  emit d a ;;
  match r with
  | resolved v => ret v
  | rejected msg => raise (Exception msg)
  | pending => raise CancelledError
  end.

(** ** The file system *)

Definition get_fs : M filesystem := fun st => (Normal (fs st), st, []).

Definition put_fs (f : filesystem) : M unit :=
  fun st => (Normal tt, {| fs := f; browser := browser st |}, []).

Definition render (p : path) : string :=
  foldr (fun c s => "/" +:+ c +:+ s) EmptyString p.

(** [str(e)] of an [OSError]. *)
Definition oserror (errno : string) (p : path) : exn :=
  Exception ("[Errno " +:+ errno +:+ ": '" +:+ render p +:+ "'").

(** [os.makedirs(p, exist_ok=True)]: nothing to do on a directory,
    [FileExistsError] on anything else that is there. *)
Definition makedirs (d : nat) (p : path) : M unit :=
  emit d (Makedirs p) ;;
  f <- get_fs ;;
  match f !! p with
  | Some Dir => ret tt
  | Some (File _) => raise (oserror "17] File exists" p)
  | None => put_fs (<[p := Dir]> f)
  end.

(** [with open(p, 'rb') as src_file: content = src_file.read()] *)
Definition read_file (d : nat) (p : path) : M (list Byte.byte) :=
  emit d (ReadFile p) ;;
  f <- get_fs ;;
  match f !! p with
  | Some (File content) => ret content
  | Some Dir => raise (oserror "21] Is a directory" p)
  | None => raise (oserror "2] No such file or directory" p)
  end.

(** [open(p, 'wb')]: the file is created, or truncated, at once. *)
Definition open_wb (d : nat) (p : path) : M unit :=
  emit d (OpenWrite p) ;;
  f <- get_fs ;;
  match f !! p with
  | Some Dir => raise (oserror "21] Is a directory" p)
  | _ => put_fs (<[p := File []]> f)
  end.

(** [dest_file.write(content)] and the close of the file at the end of the
    [with] block. *)
Definition file_write (e : env) (p : path) (content : list Byte.byte) : M unit :=
  f <- get_fs ;;
  match dest_write e with
  | write_all => put_fs (<[p := File content]> f)
  | write_fails n msg =>
      put_fs (<[p := File (take n content)]> f) ;;
      raise (Exception msg)
  end.

(** [os.path.getsize(p)].  The size reported for a directory depends on the
    file system; the code only asks for the size of the file it has just
    written. *)
Definition getsize (d : nat) (p : path) : M Z :=
  f <- get_fs ;;
  match f !! p with
  | Some (File content) =>
      let size := Z.of_nat (length content) in
      emit d (Getsize p size) ;; ret size
  | Some Dir => emit d (Getsize p 4096) ;; ret 4096
  | None => raise (oserror "2] No such file or directory" p)
  end.

(** [os.path.basename] and [os.path.dirname] on a path of components. *)
Definition basename (p : path) : string := List.last p EmptyString.
Definition dirname (p : path) : path := removelast p.

(** ** The download task *)

(** [await download.save_as(save_path)] *)
Definition download_save_as (d : nat) (e : env) (dl : download) (p : path) : M unit :=
  _ <- await d (SaveAs p) (save_as e) ;;
  f <- get_fs ;;
  match f !! p with
  | Some Dir => raise (oserror "21] Is a directory" p)
  | _ => put_fs (<[p := File (artifact dl)]> f)
  end.

(** [setup_download_handler(page, download_path)] *)
Definition setup_download_handler (d : nat) (e : env) (download_path_ : path) : M path :=
  (* Wait for download to start *)
  dl <- await d WaitForEvent (wait_for_event e) ;;
  (* Wait for download to complete *)
  _ <- await d DownloadPath (download_path e) ;;
  (* Save to the specified path *)
  let save_path := download_path_ ++ [suggested_filename dl] in
  (* Make sure the directory exists *)
  makedirs d (dirname save_path) ;;
  (* Save the downloaded file *)
  download_save_as d e dl save_path ;;
  ret save_path.

(** [asyncio.create_task(coro)]: the call is recorded; the handle is the
    coroutine itself, run when the handle is awaited. *)
Definition create_task {A} (d : nat) (coro : M A) : M (M A) :=
  emit d CreateTask ;; ret coro.

(** [str(e)] of the [TimeoutError] that [asyncio.wait_for] raises. *)
Definition TimeoutError_str : string := EmptyString.

(** [await asyncio.wait_for(task, timeout)]: the value of the task, its
    exception, or [TimeoutError] when the task had to be cancelled.  How the
    wait ended is recorded: [Captured] with the path the task returned, or
    [TimedOut]. *)
Definition wait_for (d : nat) (task : M path) (timeout : Z) : M path :=
  emit d (WaitFor timeout) ;;
  fun st =>
    match task st with
    | (Normal v, st1, ev1) => (Normal v, st1, ev1 ++ [(d, Captured v)])
    | (Raising CancelledError, st1, ev1) =>
        (Raising (Exception TimeoutError_str), st1, ev1 ++ [(d, TimedOut)])
    | x => x
    end.

(** ** The orchestrator *)

(** The double quote, for selectors that contain one. *)
Definition dq : string := String (Ascii.ascii_of_nat 34) EmptyString.

Definition selectors : list string :=
  [ "#download-sheet";
    "button#download-sheet";
    "button:has-text(" +:+ dq +:+ "Download" +:+ dq +:+ ")";
    "button:has-text(" +:+ dq +:+ "Export" +:+ dq +:+ ")";
    "a:has-text(" +:+ dq +:+ "Download" +:+ dq +:+ ")" ].

Definition xpath : string := "//*[@id=" +:+ dq +:+ "download-sheet" +:+ dq +:+ "]".

(** Truthiness of an optional element handle, and of a path (a string is
    true when it is not empty). *)
Definition truthy {A} (v : option A) : bool :=
  match v with
  | Some _ => true
  | None => false
  end.

Definition nonempty (p : path) : bool :=
  match p with
  | [] => false
  | _ :: _ => true
  end.

(** The [for selector in selectors] loop.  [download_button] is the value the
    variable holds on entry; an iteration that raises leaves it as it is. *)
Fixpoint find_download_button (d : nat) (e : env) (selectors : list string)
    (download_button : option element) : M (option element) :=
  match selectors with
  | [] => ret download_button
  | selector :: rest =>
      assigned <-
        try_except
          (v <- extern d (WaitForSelector selector) (wait_for_selector e selector) ;;
           ret (Some v))
          (fun _ => ret None) ;;
      match assigned with
      | Some v =>
          if truthy v then ret v                     (* break *)
          else find_download_button d e rest v
      | None => find_download_button d e rest download_button   (* continue *)
      end
  end.

(** The copy of the captured file to the working directory. *)
Definition copy_to_destination (d : nat) (e : env) (downloaded_path destination : path) : M unit :=
  (* Read and write the file to avoid permission issues *)
  content <- read_file d downloaded_path ;;
  open_wb d destination ;;
  file_write e destination content.

Definition set_browser : M unit :=
  fun st => (Normal tt, {| fs := fs st; browser := Some tt |}, []).

(** [await browser.close()]; reading an unbound [browser] raises
    [UnboundLocalError] before anything is called. *)
Definition browser_close (d : nat) (e : env) : M unit :=
  fun st =>
    match browser st with
    | None => raise (Exception "cannot access local variable 'browser' where it is not associated with a value") st
    | Some _ => extern d Close (close e) st
    end.

Definition browser_class_of (browser_type : string) : browser_class :=
  if String.eqb browser_type "firefox" then firefox
  else if String.eqb browser_type "webkit" then webkit
  else chromium.

Section Body.

(** The function itself, for the recursive call. *)
Variable self : string -> string -> Z -> bool -> M result.

Variable w : world.
Variable d : nat.

Let e : env := attempt w d.

(** The body of [scrape_and_download]. *)
Definition scrape_and_download_body (url browser_type : string)
    (download_timeout : Z) (headless : bool) : M Empty_set :=
  emit d (Call headless) ;;
  (* async with async_playwright() as playwright: *)
  extern d AsyncPlaywright (async_playwright e) ;;
  (* Choose browser based on parameter *)
  let browser_class := browser_class_of browser_type in
  (* Set up download directory *)
  let downloads_path := getcwd w ++ ["downloads"%string] in
  makedirs d downloads_path ;;
  try_finally
    (try_except
       ((* Launch browser *)
        extern d (Launch browser_class headless) (launch e browser_class headless) ;;
        set_browser ;;
        extern d NewContext (new_context e) ;;
        extern d NewPage (new_page e) ;;
        (* Navigate to the URL *)
        extern d (Goto url) (goto e url) ;;
        (* Try to find the download button *)
        download_button <- find_download_button d e selectors None ;;
        download_button <-
          (if negb (truthy download_button) then
             try_except
               (* Try with the XPath *)
               (extern d (WaitForSelector ("xpath=" +:+ xpath))
                  (wait_for_selector e ("xpath=" +:+ xpath)))
               (fun _ => return_ (false, Some "Download button not found with any selector"%string))
           else ret download_button) ;;
        match download_button with
        | None => return_ (false, Some "Download button not found"%string)
        | Some button =>
            (* Make sure the page is fully rendered *)
            extern d WaitForLoadState (wait_for_load_state e) ;;
            (* Set up download event *)
            download_event <- create_task d (setup_download_handler d e downloads_path) ;;
            (* Click the button *)
            extern d (Click button) (click e button) ;;
            (* Wait for download to complete *)
            downloaded_path <- wait_for d download_event download_timeout ;;
            if nonempty downloaded_path then
              (* Copy file to current directory *)
              let filename := basename downloaded_path in
              let destination := getcwd w ++ [filename] in
              copy_to_destination d e downloaded_path destination ;;
              (* Verify the file has content *)
              file_size <- getsize d destination ;;
              (if file_size <? 100 then
                 if headless then
                   r <- self url browser_type download_timeout false ;;
                   return_ r
                 else ret tt
               else ret tt) ;;
              return_ (true, None)
            else return_ (false, Some "Download failed or timed out"%string)
        end)
       (fun exc => return_ (false, Some ("Error: " +:+ str exc))))
    (try_except (browser_close d e) (fun _ => ret tt)).

End Body.

(** [scrape_and_download], at depth [d] of the recursion.  The recursive call
    is the function with one unit of fuel less, one level deeper; two units
    are always enough, as proved below. *)
Fixpoint scrape_and_download (fuel : nat) (w : world) (d : nat)
    (url browser_type : string) (download_timeout : Z) (headless : bool) : M result :=
  match fuel with
  | O => out_of_fuel
  | S fuel' =>
      call (scrape_and_download_body (scrape_and_download fuel' w (S d)) w d
              url browser_type download_timeout headless)
  end.

(** ** The resolver loop as a function *)

Definition probe_events (d : nat) (probed : list string) : list event :=
  map (fun s => (d, WaitForSelector s)) probed.

(** What the loop computes: the final value of [download_button] and the
    selectors that were probed, in order. *)
Fixpoint resolve (e : env) (sels : list string) (db : option element)
  : option element * list string :=
  match sels with
  | [] => (db, [])
  | s :: rest =>
      match wait_for_selector e s with
      | returns (Some el) => (Some el, [s])
      | returns None => (fst (resolve e rest None), s :: snd (resolve e rest None))
      | raises _ => (fst (resolve e rest db), s :: snd (resolve e rest db))
      end
  end.

(** ** Reasoning about runs *)

(** [wp m st Q]: the run of [m] from [st] ends in an outcome, a state and
    events that satisfy [Q]. *)
Definition wp {A} (m : M A) (st : state) (Q : outcome A -> state -> list event -> Prop) : Prop :=
  match m st with
  | (o, st', ev) => Q o st' ev
  end.


(** [wpf m f b Q]: the same for a call, which runs on the file system [f],
    hands the caller's [browser] back untouched, and has a value or raises
    (a [return] does not cross a call). *)
Definition wpf (m : M result) (f : filesystem) (b : option unit)
    (Q : outcome result -> filesystem -> list event -> Prop) : Prop :=
  wp m {| fs := f; browser := b |} (fun o st' ev =>
    browser st' = b /\
    match o with
    | Returning _ => False
    | _ => Q o (fs st') ev
    end).

(** ** Properties of traces and file systems *)

(** Every event was made at depth [d] or deeper. *)
Definition depth_ge (d : nat) (ev : list event) : Prop :=
  Forall (fun x => (d <= fst x)%nat) ev.

(** The event is an action recognised by [f], made at depth [k]. *)
Definition at_depth (k : nat) (f : action -> bool) (x : event) : bool :=
  f (snd x) && Nat.eqb (fst x) k.

Definition is_Call (a : action) : bool :=
  match a with Call _ => true | _ => false end.
Definition is_Launch (a : action) : bool :=
  match a with Launch _ _ => true | _ => false end.
Definition is_CreateTask (a : action) : bool :=
  match a with CreateTask => true | _ => false end.
Definition is_Click (a : action) : bool :=
  match a with Click _ => true | _ => false end.
Definition is_Captured (a : action) : bool :=
  match a with Captured _ => true | _ => false end.
Definition is_OpenWrite (a : action) : bool :=
  match a with OpenWrite _ => true | _ => false end.
Definition is_Close (a : action) : bool :=
  match a with Close => true | _ => false end.
Definition is_TimedOut (a : action) : bool :=
  match a with TimedOut => true | _ => false end.
Definition is_Getsize (a : action) : bool :=
  match a with Getsize _ _ => true | _ => false end.
Definition is_WaitForSelector (a : action) : bool :=
  match a with WaitForSelector _ => true | _ => false end.

(** The calls of [scrape_and_download] in a trace, in order. *)
Fixpoint calls (ev : list event) : list event :=
  match ev with
  | [] => []
  | x :: l => if is_Call (snd x) then x :: calls l else calls l
  end.

(** How many events of a trace satisfy [f]. *)
Fixpoint count (f : event -> bool) (ev : list event) : nat :=
  match ev with
  | [] => 0
  | x :: l => (if f x then 1 else 0) + count f l
  end.



(** The file system after [os.makedirs(p, exist_ok=True)] has returned. *)
Definition ensure_dir (p : path) (f : filesystem) : filesystem :=
  match f !! p with
  | None => <[p := Dir]> f
  | Some _ => f
  end.

(** No directory of [f] is lost in [f']. *)
Definition dirs_kept (f f' : filesystem) : Prop :=
  forall p, f !! p = Some Dir -> f' !! p = Some Dir.

(** A file system in which the file [name] of the working directory is a
    full copy of the file [name] of the download directory. *)
Definition copied (cwd : path) (f : filesystem) : Prop :=
  exists name content,
    f !! ((cwd ++ ["downloads"%string]) ++ [name]) = Some (File content) /\
    f !! (cwd ++ [name]) = Some (File content).

(** The two components of a result agree: success exactly when there is no
    error message. *)
Definition consistent (r : result) : Prop :=
  fst r = true <-> snd r = None.

(** The world [w] with the answers of [browser.close()] replaced. *)
Definition with_close (c : nat -> res unit) (w : world) : world :=
  {| getcwd := getcwd w;
     attempt := fun k =>
       {| async_playwright := async_playwright (attempt w k);
          launch := launch (attempt w k);
          new_context := new_context (attempt w k);
          new_page := new_page (attempt w k);
          goto := goto (attempt w k);
          wait_for_selector := wait_for_selector (attempt w k);
          wait_for_load_state := wait_for_load_state (attempt w k);
          click := click (attempt w k);
          wait_for_event := wait_for_event (attempt w k);
          download_path := download_path (attempt w k);
          save_as := save_as (attempt w k);
          dest_write := dest_write (attempt w k);
          close := c k |} |}.

(** ** Example worlds *)

(** A page whose button answers to the selector [button#download-sheet] and
    to the text selectors, but not to the bare id; the click starts a
    download of [n] bytes named [data.csv]. *)
Definition page (n : nat) : env :=
  {| async_playwright := returns tt;
     launch := fun _ _ => returns tt;
     new_context := returns tt;
     new_page := returns tt;
     goto := fun _ => returns tt;
     wait_for_selector := fun s =>
       if String.eqb s "#download-sheet" then raises "Timeout 5000ms exceeded."
       else if String.eqb s "button#download-sheet" then returns (Some 7%nat)
       else returns (Some 9%nat);
     wait_for_load_state := returns tt;
     click := fun _ => returns tt;
     wait_for_event :=
       resolved {| suggested_filename := "data.csv"; artifact := repeat Byte.x61 n |};
     download_path := resolved tt;
     save_as := resolved tt;
     dest_write := write_all;
     close := returns tt |}.

Definition home : path := ["home"%string; "scme"%string].

Definition url0 : string := "https://www.quorum.us/spreadsheet/external/JYrGBpZgfQeehlRsrxnv/".

(** Every attempt downloads 5000 bytes. *)
Definition w_good : world := {| getcwd := home; attempt := fun _ => page 5000 |}.

(** Every attempt, headless or not, downloads 40 bytes. *)
Definition w_small : world := {| getcwd := home; attempt := fun _ => page 40 |}.

(** Every attempt downloads 5000 bytes, and [browser.close()] raises. *)
Definition w_close_raises : world :=
  with_close (fun _ => raises "Target page, context or browser has been closed") w_good.

(** No selector ever matches. *)
Definition w_no_button : world :=
  {| getcwd := home;
     attempt := fun _ =>
       {| async_playwright := returns tt;
          launch := fun _ _ => returns tt;
          new_context := returns tt;
          new_page := returns tt;
          goto := fun _ => returns tt;
          wait_for_selector := fun _ => raises "Timeout 5000ms exceeded.";
          wait_for_load_state := returns tt;
          click := fun _ => returns tt;
          wait_for_event := pending;
          download_path := pending;
          save_as := pending;
          dest_write := write_all;
          close := returns tt |} |}.

(** The button is there, the download event never fires. *)
Definition w_timeout : world :=
  {| getcwd := home;
     attempt := fun _ =>
       {| async_playwright := returns tt;
          launch := fun _ _ => returns tt;
          new_context := returns tt;
          new_page := returns tt;
          goto := fun _ => returns tt;
          wait_for_selector := fun _ => returns (Some 7%nat);
          wait_for_load_state := returns tt;
          click := fun _ => returns tt;
          wait_for_event := pending;
          download_path := pending;
          save_as := pending;
          dest_write := write_all;
          close := returns tt |} |}.



(** The runs of the entry point in these worlds, from an empty working
    directory unless said otherwise. *)
Definition start : state := {| fs := ∅; browser := None |}.


Definition run_small : outcome result * state * list event :=
  scrape_and_download 2 w_small 0 url0 "chromium" 60 true start.

Definition run_close_raises : outcome result * state * list event :=
  scrape_and_download 2 w_close_raises 0 url0 "firefox" 60 true start.

Definition run_no_button : outcome result * state * list event :=
  scrape_and_download 2 w_no_button 0 url0 "chromium" 60 true start.

Definition run_timeout : outcome result * state * list event :=
  scrape_and_download 2 w_timeout 0 url0 "chromium" 60 true start.




(** ** Further properties of traces and file systems *)

(** A size check that saw fewer than 100 bytes. *)
Definition is_small_Getsize (a : action) : bool :=
  match a with Getsize _ size => size <? 100 | _ => false end.

Definition browser_class_eqb (c c' : browser_class) : bool :=
  match c, c' with
  | firefox, firefox | webkit, webkit | chromium, chromium => true
  | _, _ => false
  end.

(** The event [x] carries the arguments of the call at depth [d]: the URL,
    the browser class and the timeout, and the mode, which is [headless] at
    depth [d] and visible anywhere else. *)
Definition on_request (c : browser_class) (url : string) (timeout : Z) (d : nat)
    (headless : bool) (x : event) : bool :=
  let mode := if Nat.eqb (fst x) d then headless else false in
  match snd x with
  | Call hh => Bool.eqb hh mode
  | Launch c' hh => browser_class_eqb c' c && Bool.eqb hh mode
  | Goto u => String.eqb u url
  | WaitFor t => t =? timeout
  | _ => true
  end.

(** Nothing differs between [f] and [f'] except, at most, entries of the
    working directory and of its [downloads] directory. *)
Definition same_outside (cwd : path) (f f' : filesystem) : Prop :=
  forall p,
    (forall x, p <> cwd ++ [x]) ->
    (forall x, p <> (cwd ++ ["downloads"%string]) ++ [x]) ->
    f' !! p = f !! p.


(** ** Further example worlds *)

(** The browser cannot be launched. *)
Definition w_no_browser : world :=
  {| getcwd := home;
     attempt := fun _ =>
       {| async_playwright := returns tt;
          launch := fun _ _ => raises "Executable doesn't exist";
          new_context := returns tt;
          new_page := returns tt;
          goto := fun _ => returns tt;
          wait_for_selector := fun _ => returns (Some 7%nat);
          wait_for_load_state := returns tt;
          click := fun _ => returns tt;
          wait_for_event := pending;
          download_path := pending;
          save_as := pending;
          dest_write := write_all;
          close := returns tt |} |}.

Definition run_no_browser : outcome result * state * list event :=
  scrape_and_download 2 w_no_browser 0 url0 "chromium" 60 true start.




(** * The callers of [scrape_and_download] *)

(** ** Strings and file names *)

(** The characters [/] and [.]. *)
Definition slash : Ascii.ascii := Ascii.ascii_of_nat 47.
Definition dot : Ascii.ascii := Ascii.ascii_of_nat 46.

(** [s.rstrip('/')] *)
Fixpoint rstrip_slash (s : string) : string :=
  match s with
  | EmptyString => EmptyString
  | String c s' =>
      match rstrip_slash s' with
      | EmptyString => if Ascii.eqb c slash then EmptyString else String c EmptyString
      | r => String c r
      end
  end.

Fixpoint contains_slash (s : string) : bool :=
  match s with
  | EmptyString => false
  | String c s' => Ascii.eqb c slash || contains_slash s'
  end.

(** [os.path.basename(s)] of a string: what follows its last slash. *)
Fixpoint basename_str (s : string) : string :=
  match s with
  | EmptyString => EmptyString
  | String c s' =>
      if contains_slash s' then basename_str s'
      else if Ascii.eqb c slash then s'
      else s
  end.

(** [s.endswith(suffix)] *)
Fixpoint endswith (s suffix : string) : bool :=
  String.eqb s suffix ||
  match s with
  | EmptyString => false
  | String _ s' => endswith s' suffix
  end.

(** [s.rfind(c)] *)
Fixpoint rfind (c : Ascii.ascii) (s : string) : option nat :=
  match s with
  | EmptyString => None
  | String a s' =>
      match rfind c s' with
      | Some i => Some (S i)
      | None => if Ascii.eqb a c then Some 0%nat else None
      end
  end.

Fixpoint all_dots (s : string) : bool :=
  match s with
  | EmptyString => true
  | String c s' => Ascii.eqb c dot && all_dots s'
  end.

(** [os.path.splitext(p)[0]]: [p] up to its last dot, when that dot is in
    the last component and something other than dots comes before it
    there; [p] itself otherwise. *)
Definition splitext_root (p : string) : string :=
  let filenameIndex := match rfind slash p with Some i => S i | None => 0%nat end in
  match rfind dot p with
  | Some dotIndex =>
      if (filenameIndex <=? dotIndex)%nat then
        if all_dots (String.substring filenameIndex (dotIndex - filenameIndex) p) then p
        else String.substring 0 dotIndex p
      else p
  | None => p
  end.

(** Truthiness of a string. *)
Definition nonempty_str (s : string) : bool :=
  match s with
  | EmptyString => false
  | String _ _ => true
  end.

(** ** The operating system, as the callers see it *)

(** What the callers ask of the system besides the file system: [scandir] is
    the sequence in which the names of a directory are enumerated (the
    order of [os.listdir] is arbitrary); [decode_error] is the
    [UnicodeDecodeError] of text mode on bytes that do not decode;
    [csv_rows] is the number of rows [csv.reader] yields over a file, or
    its error; [today] is
    [datetime.datetime.now().strftime("%Y-%m-%d")]. *)
Record os_env := {
  scandir : list string;
  decode_error : list Byte.byte -> option string;
  csv_rows : list Byte.byte -> res nat;
  today : string
}.

(** [os.path.exists(name)] and [os.path.isfile(name)], for a name relative
    to the working directory. *)
Definition path_exists (cwd : path) (f : filesystem) (name : string) : bool :=
  match f !! (cwd ++ [name]) with
  | Some _ => true
  | None => false
  end.

Definition isfile (cwd : path) (f : filesystem) (name : string) : bool :=
  match f !! (cwd ++ [name]) with
  | Some (File _) => true
  | _ => false
  end.

(** [os.listdir()]: the entries of the working directory, in the order of
    the enumeration. *)
Definition listdir (o : os_env) (cwd : path) (f : filesystem) : list string :=
  List.filter (path_exists cwd f) (scandir o).

(** [[f for f in os.listdir() if f.endswith('.csv') and os.path.isfile(f)]] *)
Definition downloaded_files (o : os_env) (cwd : path) (f : filesystem) : list string :=
  List.filter (fun name => endswith name ".csv" && isfile cwd f name) (listdir o cwd f).

(** The number of lines [f.readlines()] gives in text mode, where a line
    ends at LF, at CR LF or at a lone CR, and what follows the last line end
    is a line when it is not empty.  The bytes 10 and 13 are taken to be
    these characters, as they are in UTF-8 and in every encoding that
    extends ASCII. *)
Fixpoint count_lines (bs : list Byte.byte) : nat :=
  match bs with
  | [] => 0
  | b :: rest =>
      if Byte.eqb b Byte.x0a then S (count_lines rest)
      else if Byte.eqb b Byte.x0d then
        match rest with
        | b' :: rest' =>
            if Byte.eqb b' Byte.x0a then S (count_lines rest')
            else S (count_lines rest)
        | [] => 1
        end
      else
        match rest with
        | [] => 1
        | _ :: _ => count_lines rest
        end
  end.

(** The byte ends a line. *)
Definition is_eol (b : Byte.byte) : bool := Byte.eqb b Byte.x0a || Byte.eqb b Byte.x0d.

(** [with open(p, 'r') as f: lines = f.readlines()]; [len(lines)] is what
    the code uses. *)
Definition readlines (d : nat) (o : os_env) (p : path) : M nat :=
  content <- read_file d p ;;
  match decode_error o content with
  | Some msg => raise (Exception msg)
  | None => ret (count_lines content)
  end.

(** ** [verify_file_content] *)

Definition verify_file_content (d : nat) (o : os_env) (file_path : path) : M bool :=
  try_except
    (lines <- readlines d o file_path ;;
     (* Check if we have more than just a header row *)
     if (lines <=? 1)%nat then ret false
     else ret true)
    (fun _ => ret false).

(** ** [main_async] *)

(** The parsed command line. *)
Record args := {
  args_url : string;
  args_browser : string;
  args_timeout : Z;
  args_no_headless : bool;
  args_verify_content : bool
}.

(** How a main function ends, when no exception leaves it: it returns a
    value ([None] or an integer), or [exit(code)] has raised
    [SystemExit]. *)
Inductive ending :=
| Returns (v : option Z)
| SystemExit (code : Z).

(** The events of [main_async] itself are made at depth 0; its first call
    of [scrape_and_download] runs at depth 1 (the retry of that call at
    depth 2) and its second call at depth 3, so that every browser session
    has answers of its own. *)
Definition main_async (fuel : nat) (w : world) (o : os_env) (a : args) : M ending :=
  let headless := negb (args_no_headless a) in
  r <- scrape_and_download fuel w 1 (args_url a) (args_browser a) (args_timeout a) headless ;;
  (* If verification is requested and we're in headless mode *)
  r <-
    (if fst r && args_verify_content a && headless then
       let filename := basename_str (rstrip_slash (args_url a)) +:+ ".csv" in
       f <- get_fs ;;
       let filename :=
         if negb (path_exists (getcwd w) f filename) then
           (* Try to find the downloaded file *)
           match downloaded_files o (getcwd w) f with
           | name :: _ => Some name
           | [] => None
           end
         else Some filename in
       match filename with
       | Some filename =>
           if nonempty_str filename then
             ok <- verify_file_content 0 o (getcwd w ++ [filename]) ;;
             if negb ok then
               scrape_and_download fuel w 3 (args_url a) (args_browser a) (args_timeout a) false
             else ret r
           else ret r
       | None => ret r
       end
     else ret r) ;;
  if fst r then ret (Returns None)
  else ret (SystemExit 1).

(** ** The configuration and [run_scraper.main] *)

Module config.

Definition QUORUM_URL : string :=
  "https://www.quorum.us/spreadsheet/external/JYrGBpZgfQeehlRsrxnv/".

Definition DEFAULT_BROWSER : string := "chromium".

Definition DEFAULT_TIMEOUT : Z := 60.

End config.

(** [with open(p, 'r') as f: row_count = sum(1 for _ in csv.reader(f))] *)
Definition count_rows (d : nat) (o : os_env) (p : path) : M nat :=
  content <- read_file d p ;;
  match csv_rows o content with
  | returns n => ret n
  | raises msg => raise (Exception msg)
  end.

(** [open(p, 'wb')] of a file in a directory other than the working
    directory: the directory has to be there. *)
Definition open_wb_in (d : nat) (p : path) : M unit :=
  f <- get_fs ;;
  match f !! dirname p with
  | Some Dir => open_wb d p
  | Some (File _) => emit d (OpenWrite p) ;; raise (oserror "20] Not a directory" p)
  | None => emit d (OpenWrite p) ;; raise (oserror "2] No such file or directory" p)
  end.

Module run_scraper.

(** The events of [main] itself are made at depth 0, with the answers of
    attempt 0 for its own write; the call of [scrape_and_download] runs at
    depth 1. *)
Definition main (fuel : nat) (w : world) (o : os_env) : M ending :=
  (* Create logs directory *)
  makedirs 0 (getcwd w ++ ["logs"%string]) ;;
  (* Create archive directory *)
  let archive_dir := "archive"%string in
  makedirs 0 (getcwd w ++ [archive_dir]) ;;
  (* Run the scraper *)
  r <- scrape_and_download fuel w 1 config.QUORUM_URL config.DEFAULT_BROWSER
         config.DEFAULT_TIMEOUT true ;;
  if fst r then
    (* Get the filename *)
    let filename := basename_str (rstrip_slash config.QUORUM_URL) +:+ ".csv" in
    f <- get_fs ;;
    let filename :=
      if negb (path_exists (getcwd w) f filename) then
        (* Try to find the downloaded file *)
        match downloaded_files o (getcwd w) f with
        | name :: _ => Some name
        | [] => None
        end
      else Some filename in
    match filename with
    | None => ret (SystemExit 1)
    | Some filename =>
        (* Log the row count *)
        count_rows 0 o (getcwd w ++ [filename]) ;;
        (* Create a date-stamped copy in the archive directory *)
        let archive_filename := splitext_root filename +:+ "_" +:+ today o +:+ ".csv" in
        let archive_path := (getcwd w ++ [archive_dir]) ++ [archive_filename] in
        (* Copy to archive *)
        content <- read_file 0 (getcwd w ++ [filename]) ;;
        open_wb_in 0 archive_path ;;
        file_write (attempt w 0) archive_path content ;;
        ret (Returns (Some 0))
    end
  else ret (Returns (Some 1)).

(** The exit status of the script: [sys.exit(asyncio.run(main()))]. *)
Definition exit_status (e : ending) : Z :=
  match e with
  | Returns (Some v) => v
  | Returns None => 0
  | SystemExit code => code
  end.

End run_scraper.


(** ** Example worlds for the callers *)

(** A system in which every file decodes, the rows of a file are its lines,
    and the directory is enumerated in the order given. *)
Definition os_plain : os_env :=
  {| scandir := ["notes.txt"; "old.csv"; "data.csv"; "downloads"; "archive"; "logs"]%string;
     decode_error := fun _ => None;
     csv_rows := fun c => returns (count_lines c);
     today := "2025-04-01" |}.

(** A working directory whose [data.csv] is the header [id,bill] alone. *)
Definition fs_header_only : filesystem :=
  {[ home ++ ["data.csv"%string] :=
       File [Byte.x69; Byte.x64; Byte.x2c; Byte.x62; Byte.x69; Byte.x6c; Byte.x6c; Byte.x0a] ]}.

(** The command line [url0 --verify-content]. *)
Definition args_verify : args :=
  {| args_url := url0;
     args_browser := "chromium";
     args_timeout := 30;
     args_no_headless := false;
     args_verify_content := true |}.

(** Every download is 40 bytes on one line: the first call retries, the
    verification fails, and the second call is made. *)
Definition run_main_async : outcome ending * state * list event :=
  main_async 2 w_small os_plain args_verify start.

(** A working directory that still holds a file [old.csv]. *)
Definition fs_stale : filesystem :=
  {[ home ++ ["old.csv"%string] := File [Byte.x6f; Byte.x6c; Byte.x64; Byte.x0a] ]}.

(** The download succeeds and is saved as [data.csv]. *)
Definition run_main : outcome ending * state * list event :=
  run_scraper.main 2 w_good os_plain {| fs := fs_stale; browser := None |}.



(** ** Properties of the callers *)

(** The calls of a run of [main_async]: the first one, its retry if any,
    and the second one if any. *)
Definition sessions (h retry second : bool) : list event :=
  (1%nat, Call h) :: (if retry then [(2%nat, Call false)] else []) ++
  (if second then [(3%nat, Call false)] else []).

(** Nothing has changed in the [archive] directory. *)
Definition archive_same (cwd : path) (f f' : filesystem) : Prop :=
  forall x,
    f' !! ((cwd ++ ["archive"%string]) ++ [x]) = f !! ((cwd ++ ["archive"%string]) ++ [x]).

(** The file [name] of the working directory, which is the guessed name or
    a listed name with the suffix [.csv], has a full copy in the archive
    under [root_date.csv]; the [logs] and [archive] directories are there. *)
Definition archived (o : os_env) (cwd : path) (guess : string) (f' : filesystem) : Prop :=
  exists name content,
    (name = guess \/ (In name (scandir o) /\ endswith name ".csv" = true)) /\
    f' !! (cwd ++ [name]) = Some (File content) /\
    f' !! ((cwd ++ ["archive"%string]) ++
           [splitext_root name +:+ "_" +:+ today o +:+ ".csv"]) = Some (File content) /\
    f' !! (cwd ++ ["logs"%string]) = Some Dir /\
    f' !! (cwd ++ ["archive"%string]) = Some Dir.

(** * Proofs *)
Lemma wp_run {A} (m : M A) st Q o st' ev :
  wp m st Q -> m st = (o, st', ev) -> Q o st' ev.
Proof. unfold wp. intros H E. rewrite E in H. exact H. Qed.


Lemma wp_conseq {A} (m : M A) st (P Q : outcome A -> state -> list event -> Prop) :
  wp m st P -> (forall o st' ev, P o st' ev -> Q o st' ev) -> wp m st Q.
Proof. unfold wp. destruct (m st) as [[o st'] ev]. auto. Qed.

Lemma wp_ret {A} (a : A) st Q : Q (Normal a) st [] -> wp (ret a) st Q.
Proof. exact (fun H => H). Qed.

Lemma wp_return {A} r st (Q : outcome A -> _) : Q (Returning r) st [] -> wp (return_ r) st Q.
Proof. exact (fun H => H). Qed.

Lemma wp_raise {A} e st (Q : outcome A -> _) : Q (Raising e) st [] -> wp (raise e) st Q.
Proof. exact (fun H => H). Qed.

Lemma wp_emit d a st Q : Q (Normal tt) st [(d, a)] -> wp (emit d a) st Q.
Proof. exact (fun H => H). Qed.

Lemma wp_bind {A B} (m : M A) (f : A -> M B) st Q :
  wp m st (fun o st1 ev1 =>
    match o with
    | Normal a => wp (f a) st1 (fun o2 st2 ev2 => Q o2 st2 (ev1 ++ ev2))
    | Returning r => Q (Returning r) st1 ev1
    | Raising e => Q (Raising e) st1 ev1
    | OutOfFuel => Q OutOfFuel st1 ev1
    end) ->
  wp (bind m f) st Q.
Proof.
  unfold wp, bind. destruct (m st) as [[[a|r|e|] st1] ev1]; auto.
  destruct (f a st1) as [[o2 st2] ev2]; auto.
Qed.

Lemma wp_try_except {A} (m : M A) h st Q :
  wp m st (fun o st1 ev1 =>
    match o with
    | Raising (Exception msg) =>
        wp (h (Exception msg)) st1 (fun o2 st2 ev2 => Q o2 st2 (ev1 ++ ev2))
    | _ => Q o st1 ev1
    end) ->
  wp (try_except m h) st Q.
Proof.
  unfold wp, try_except. destruct (m st) as [[[a|r|[msg|]|] st1] ev1]; cbn; auto.
  destruct (h (Exception msg) st1) as [[o2 st2] ev2]; auto.
Qed.

Lemma wp_try_finally {A} (m : M A) fin st Q :
  wp m st (fun o st1 ev1 =>
    match o with
    | OutOfFuel => Q OutOfFuel st1 ev1
    | _ =>
        wp fin st1 (fun o2 st2 ev2 =>
          match o2 with
          | Normal _ => Q o st2 (ev1 ++ ev2)
          | Returning r => Q (Returning r) st2 (ev1 ++ ev2)
          | Raising e => Q (Raising e) st2 (ev1 ++ ev2)
          | OutOfFuel => Q OutOfFuel st2 (ev1 ++ ev2)
          end)
    end) ->
  wp (try_finally m fin) st Q.
Proof.
  unfold wp, try_finally. destruct (m st) as [[[a|r|e|] st1] ev1]; auto;
    destruct (fin st1) as [[[[]|r2|e2|] st2] ev2]; auto.
Qed.

Lemma wp_call body f b Q :
  wp body {| fs := f; browser := None |} (fun o st1 ev1 =>
    match o with
    | Normal a => True
    | Returning r => Q (Normal r) {| fs := fs st1; browser := b |} ev1
    | Raising e => Q (Raising e) {| fs := fs st1; browser := b |} ev1
    | OutOfFuel => Q OutOfFuel {| fs := fs st1; browser := b |} ev1
    end) ->
  wp (call body) {| fs := f; browser := b |} Q.
Proof.
  unfold wp, call. destruct (body _) as [[[[]|r|e|] st1] ev1]; auto.
Qed.

Lemma wp_extern {A} d a (r : res A) st Q :
  (forall v, r = returns v -> Q (Normal v) st [(d, a)]) ->
  (forall msg, r = raises msg -> Q (Raising (Exception msg)) st [(d, a)]) ->
  wp (extern d a r) st Q.
Proof. intros H1 H2. destruct r; [apply (H1 _ eq_refl) | apply (H2 _ eq_refl)]. Qed.

Lemma wp_await {A} d a (r : awaited A) st Q :
  (forall v, r = resolved v -> Q (Normal v) st [(d, a)]) ->
  (forall msg, r = rejected msg -> Q (Raising (Exception msg)) st [(d, a)]) ->
  (r = pending -> Q (Raising CancelledError) st [(d, a)]) ->
  wp (await d a r) st Q.
Proof.
  intros H1 H2 H3. destruct r; [apply (H1 _ eq_refl) | apply (H2 _ eq_refl) | apply (H3 eq_refl)].
Qed.



Lemma wp_set_browser f b Q :
  Q (Normal tt) {| fs := f; browser := Some tt |} [] ->
  wp set_browser {| fs := f; browser := b |} Q.
Proof. exact (fun H => H). Qed.

Lemma ensure_dir_lookup (p : path) (f : filesystem) :
  (forall c, f !! p <> Some (File c)) -> ensure_dir p f !! p = Some Dir.
Proof.
  intros H. unfold ensure_dir. destruct (f !! p) as [[|c]|] eqn:E.
  - exact E.
  - destruct (H c). reflexivity.
  - apply lookup_insert_eq.
Qed.

Lemma ensure_dir_id (p : path) (f : filesystem) : f !! p = Some Dir -> ensure_dir p f = f.
Proof. intros H. unfold ensure_dir. rewrite H. reflexivity. Qed.

Lemma wp_makedirs d p f b Q :
  (forall c, f !! p = Some (File c) ->
     Q (Raising (oserror "17] File exists" p)) {| fs := f; browser := b |} [(d, Makedirs p)]) ->
  ((forall c, f !! p <> Some (File c)) ->
     Q (Normal tt) {| fs := ensure_dir p f; browser := b |} [(d, Makedirs p)]) ->
  wp (makedirs d p) {| fs := f; browser := b |} Q.
Proof.
  intros H1 H2. unfold wp, makedirs, bind, emit, get_fs, put_fs, ret, raise, ensure_dir in *. cbn.
  destruct (f !! p) as [[|c]|] eqn:E; cbn; eauto; apply H2; congruence.
Qed.

Lemma wp_makedirs_dir d p f b Q :
  f !! p = Some Dir ->
  Q (Normal tt) {| fs := f; browser := b |} [(d, Makedirs p)] ->
  wp (makedirs d p) {| fs := f; browser := b |} Q.
Proof.
  intros H1 H2. apply wp_makedirs; intros H.
  - congruence.
  - rewrite ensure_dir_id; auto.
Qed.

Lemma wp_read_file d p f b Q :
  (forall c, f !! p = Some (File c) ->
     Q (Normal c) {| fs := f; browser := b |} [(d, ReadFile p)]) ->
  (forall e, (forall c, f !! p <> Some (File c)) ->
     Q (Raising (Exception e)) {| fs := f; browser := b |} [(d, ReadFile p)]) ->
  wp (read_file d p) {| fs := f; browser := b |} Q.
Proof.
  intros H1 H2. unfold wp, read_file, bind, emit, get_fs, ret, raise, oserror. cbn.
  destruct (f !! p) as [[|c]|] eqn:E; cbn; auto; apply H2; congruence.
Qed.

Lemma wp_read_file_known d p f b c Q :
  f !! p = Some (File c) ->
  Q (Normal c) {| fs := f; browser := b |} [(d, ReadFile p)] ->
  wp (read_file d p) {| fs := f; browser := b |} Q.
Proof.
  intros H1 H2. apply wp_read_file.
  - intros c' H. congruence.
  - intros e H. destruct (H c H1).
Qed.

Lemma wp_open_wb d p f b Q :
  (forall e, f !! p = Some Dir ->
     Q (Raising (Exception e)) {| fs := f; browser := b |} [(d, OpenWrite p)]) ->
  (f !! p <> Some Dir ->
     Q (Normal tt) {| fs := <[p := File []]> f; browser := b |} [(d, OpenWrite p)]) ->
  wp (open_wb d p) {| fs := f; browser := b |} Q.
Proof.
  intros H1 H2. unfold wp, open_wb, bind, emit, get_fs, put_fs, ret, raise, oserror. cbn.
  destruct (f !! p) as [[|c]|] eqn:E; cbn; auto; apply H2; congruence.
Qed.

Lemma wp_file_write e p content f b Q :
  (dest_write e = write_all ->
     Q (Normal tt) {| fs := <[p := File content]> f; browser := b |} []) ->
  (forall n msg, dest_write e = write_fails n msg ->
     Q (Raising (Exception msg)) {| fs := <[p := File (take n content)]> f; browser := b |} []) ->
  wp (file_write e p content) {| fs := f; browser := b |} Q.
Proof.
  intros H1 H2. unfold wp, file_write, bind, emit, get_fs, put_fs, ret, raise. cbn.
  destruct (dest_write e) as [|n msg]; cbn; eauto.
Qed.

Lemma wp_getsize d p f b Q :
  (forall c, f !! p = Some (File c) ->
     Q (Normal (Z.of_nat (length c))) {| fs := f; browser := b |}
       [(d, Getsize p (Z.of_nat (length c)))]) ->
  (f !! p = Some Dir -> Q (Normal 4096) {| fs := f; browser := b |} [(d, Getsize p 4096)]) ->
  (forall e, f !! p = None -> Q (Raising (Exception e)) {| fs := f; browser := b |} []) ->
  wp (getsize d p) {| fs := f; browser := b |} Q.
Proof.
  intros H1 H2 H3. unfold wp, getsize, bind, emit, get_fs, ret, raise, oserror. cbn.
  destruct (f !! p) as [[|c]|] eqn:E; cbn; eauto.
Qed.

Lemma wp_getsize_known d p f b c Q :
  f !! p = Some (File c) ->
  Q (Normal (Z.of_nat (length c))) {| fs := f; browser := b |}
    [(d, Getsize p (Z.of_nat (length c)))] ->
  wp (getsize d p) {| fs := f; browser := b |} Q.
Proof.
  intros H1 H2. apply wp_getsize; intros; congruence.
Qed.

Lemma wp_download_save_as d e dl p f b Q :
  (f !! p <> Some Dir ->
     Q (Normal tt) {| fs := <[p := File (artifact dl)]> f; browser := b |} [(d, SaveAs p)]) ->
  (forall msg, Q (Raising (Exception msg)) {| fs := f; browser := b |} [(d, SaveAs p)]) ->
  (save_as e = pending ->
     Q (Raising CancelledError) {| fs := f; browser := b |} [(d, SaveAs p)]) ->
  wp (download_save_as d e dl p) {| fs := f; browser := b |} Q.
Proof.
  intros H1 H2 H3.
  unfold wp, download_save_as, await, bind, emit, get_fs, put_fs, ret, raise, oserror. cbn.
  destruct (save_as e) as [[]|msg|] eqn:Es; cbn.
  - destruct (f !! p) as [[|c]|] eqn:E; cbn.
    + apply H2.
    + apply H1; congruence.
    + apply H1; congruence.
  - apply H2.
  - apply H3. reflexivity.
Qed.

(** The [finally] clause: [browser.close()] is called when [browser] is
    bound, and whatever it raises is swallowed. *)
Lemma wp_finally_unbound d e f Q :
  Q (Normal tt) {| fs := f; browser := None |} [] ->
  wp (try_except (browser_close d e) (fun _ => ret tt)) {| fs := f; browser := None |} Q.
Proof. intros H. unfold wp, try_except, browser_close, raise, ret. cbn. exact H. Qed.

Lemma wp_finally_close d e f Q :
  Q (Normal tt) {| fs := f; browser := Some tt |} [(d, Close)] ->
  wp (try_except (browser_close d e) (fun _ => ret tt)) {| fs := f; browser := Some tt |} Q.
Proof.
  intros H. unfold wp, try_except, browser_close, extern, bind, emit, raise, ret. cbn.
  destruct (close e) as [[]|msg]; cbn; exact H.
Qed.

Lemma find_download_button_resolve d e sels db st :
  find_download_button d e sels db st =
    (Normal (fst (resolve e sels db)), st, probe_events d (snd (resolve e sels db))).
Proof.
  revert db st. induction sels as [|s rest IH]; intros db st; [reflexivity|].
  cbn [find_download_button resolve].
  unfold bind at 1, try_except, extern, bind, emit, ret, raise.
  destruct (wait_for_selector e s) as [[el|]|msg]; cbn; try reflexivity; rewrite IH; reflexivity.
Qed.


Lemma resolve_found e sels db el :
  fst (resolve e sels db) = Some el ->
  db = Some el \/ exists s, In s sels /\ wait_for_selector e s = returns (Some el).
Proof.
  revert db. induction sels as [|s rest IH]; intros db; cbn [resolve].
  - auto.
  - destruct (wait_for_selector e s) as [[x|]|msg] eqn:E; cbn [fst]; intros H.
    + right. exists s. split; [left; reflexivity | congruence].
    + destruct (IH _ H) as [H'|(s' & Hin & Hs')]; [discriminate|].
      right. exists s'. split; [right; exact Hin | exact Hs'].
    + destruct (IH _ H) as [H'|(s' & Hin & Hs')]; [left; exact H'|].
      right. exists s'. split; [right; exact Hin | exact Hs'].
Qed.

(** The search for the button as a whole: the loop, then the XPath when the
    loop has found nothing.  It hands an element to what follows, or nothing,
    or it returns the failure of the XPath probe. *)
Lemma wp_locate {A} d e sels x r1 (k : option element -> M A) st Q :
  (forall l el s, In s (sels ++ [x]) -> wait_for_selector e s = returns (Some el) ->
     wp (k (Some el)) st (fun o st' ev => Q o st' (probe_events d l ++ ev))) ->
  (forall l, wait_for_selector e x = returns None ->
     wp (k None) st (fun o st' ev => Q o st' (probe_events d (l ++ [x]) ++ ev))) ->
  (forall l msg, wait_for_selector e x = raises msg ->
     Q (Returning r1) st (probe_events d (l ++ [x]))) ->
  wp (download_button <- find_download_button d e sels None ;;
      download_button <-
        (if negb (truthy download_button) then
           try_except (extern d (WaitForSelector x) (wait_for_selector e x))
             (fun _ => return_ r1)
         else ret download_button) ;;
      k download_button) st Q.
Proof.
  intros HA HB HC. unfold wp, bind. rewrite find_download_button_resolve.
  destruct (fst (resolve e sels None)) as [el|] eqn:E; cbn.
  - destruct (resolve_found _ _ _ _ E) as [?|(s & Hin & Hs)]; [discriminate|].
    specialize (HA (snd (resolve e sels None)) el s). unfold wp in HA.
    destruct (k (Some el) st) as [[o st'] ev]. cbn.
    apply HA; [apply in_or_app; left; exact Hin | exact Hs].
  - unfold try_except, extern, bind, emit, ret, raise, return_. cbn.
    assert (Hsnoc : forall l (t : list event),
      probe_events d l ++ (d, WaitForSelector x) :: t = probe_events d (l ++ [x]) ++ t).
    { intros l t. unfold probe_events. rewrite map_app, <- app_assoc. reflexivity. }
    destruct (wait_for_selector e x) as [[el|]|msg] eqn:Ex; cbn.
    + specialize (HA (snd (resolve e sels None) ++ [x]) el x). unfold wp in HA.
      destruct (k (Some el) st) as [[o st'] ev]. cbn. rewrite Hsnoc.
      apply HA; [apply in_or_app; right; left; reflexivity | exact Ex].
    + specialize (HB (snd (resolve e sels None)) eq_refl). unfold wp in HB.
      destruct (k None st) as [[o st'] ev]. cbn. rewrite Hsnoc. exact HB.
    + specialize (HC (snd (resolve e sels None)) msg eq_refl).
      rewrite Hsnoc, app_nil_r. exact HC.
Qed.

Lemma wp_create_task {A} d (coro : M A) st Q :
  Q (Normal coro) st [(d, CreateTask)] -> wp (create_task d coro) st Q.
Proof. exact (fun H => H). Qed.

Lemma wp_wait_for d task timeout st Q :
  wp task st (fun o st1 ev1 =>
    match o with
    | Normal v => Q (Normal v) st1 ((d, WaitFor timeout) :: ev1 ++ [(d, Captured v)])
    | Raising CancelledError =>
        Q (Raising (Exception TimeoutError_str)) st1 ((d, WaitFor timeout) :: ev1 ++ [(d, TimedOut)])
    | _ => Q o st1 ((d, WaitFor timeout) :: ev1)
    end) ->
  wp (wait_for d task timeout) st Q.
Proof.
  unfold wp, wait_for, bind, emit. cbn.
  destruct (task st) as [[[a|r|[msg|]|] st1] ev1]; auto.
Qed.


Lemma wp_subst {A} (m m' : M A) st Q : m = m' -> wp m' st Q -> wp m st Q.
Proof. intros ->. exact (fun H => H). Qed.

Lemma fs_lookup_insert (f : filesystem) (p : path) (n : node) : <[p := n]> f !! p = Some n.
Proof. apply lookup_insert_eq. Qed.

Lemma dirname_snoc (p : path) x : dirname (p ++ [x]) = p.
Proof. apply removelast_last. Qed.

Lemma basename_snoc (p : path) x : basename (p ++ [x]) = x.
Proof. apply last_last. Qed.

Lemma nonempty_snoc (p : path) x : nonempty (p ++ [x]) = true.
Proof. destruct p; reflexivity. Qed.

(** Symbolic execution of a run: one rule per construct; the facts each rule
    brings are simplified, and a branch whose facts contradict each other is
    closed. *)
Ltac wp_clean :=
  try discriminate;
  try match goal with
      | H : (<[?p := _]> _) !! ?p = _ |- _ => rewrite lookup_insert_eq in H
      | H : (<[?p := _]> _) !! ?p <> _ |- _ => rewrite lookup_insert_eq in H
      end;
  try congruence.

Ltac wp_prim :=
  lazymatch goal with
  | |- wp (bind (find_download_button _ _ _ None) _) _ _ =>
      apply wp_locate; [intros ? ? ? ? ? | intros ? ? | intros ? ? ?]
  | |- wp (bind (copy_to_destination _ _ _ (_ ++ [basename (_ ++ [_])])) _) _ _ =>
      eapply wp_subst; [rewrite !basename_snoc; reflexivity |]
  | |- wp (bind _ _) _ _ => apply wp_bind
  | |- wp (try_except (browser_close _ _) _) {| fs := _; browser := None |} _ =>
      apply wp_finally_unbound
  | |- wp (try_except (browser_close _ _) _) {| fs := _; browser := Some _ |} _ =>
      apply wp_finally_close
  | |- wp (try_except _ _) _ _ => apply wp_try_except
  | |- wp (try_finally _ _) _ _ => apply wp_try_finally
  | |- wp (call _) _ _ => apply wp_call
  | |- wp (ret _) _ _ => apply wp_ret
  | |- wp (return_ _) _ _ => apply wp_return
  | |- wp (raise _) _ _ => apply wp_raise
  | |- wp (emit _ _) _ _ => apply wp_emit
  | |- wp (extern _ _ _) _ _ => apply wp_extern; [intros ? ? | intros ? ?]
  | |- wp (await _ _ _) _ _ => apply wp_await; [intros ? ? | intros ? ? | intros ?]
  | |- wp (makedirs ?d (dirname (?p ++ [?x]))) _ _ =>
      apply (wp_subst _ (makedirs d p)); [rewrite dirname_snoc; reflexivity |]
  | |- wp (makedirs _ _) _ _ =>
      first [ apply wp_makedirs_dir; [solve [auto using ensure_dir_lookup] |]
            | apply wp_makedirs; [intros ? ? | intros ?] ]
  | |- wp (read_file _ _) _ _ =>
      first [ eapply wp_read_file_known; [apply fs_lookup_insert |]
            | apply wp_read_file; [intros ? ? | intros ? ?] ]
  | |- wp (open_wb _ _) _ _ => apply wp_open_wb; [intros ? ? | intros ?]
  | |- wp (file_write _ _ _) _ _ => apply wp_file_write; [intros ? | intros ? ? ?]
  | |- wp (getsize _ _) _ _ =>
      first [ eapply wp_getsize_known; [apply fs_lookup_insert |]
            | apply wp_getsize; [intros ? ? | intros ? | intros ? ?] ]
  | |- wp (download_save_as _ _ _ _) _ _ =>
      apply wp_download_save_as; [intros ? | intros ? | intros ?]
  | |- wp (create_task _ _) _ _ => apply wp_create_task
  | |- wp (wait_for _ _ _) _ _ => apply wp_wait_for
  | |- wp set_browser _ _ => apply wp_set_browser
  | |- wp (setup_download_handler _ _ _) _ _ => unfold setup_download_handler
  | |- wp (copy_to_destination _ _ _ _) _ _ => unfold copy_to_destination
  | |- wp (if nonempty (_ ++ [_]) then ?m else _) _ _ =>
      apply (wp_subst _ m); [rewrite nonempty_snoc; reflexivity |]
  | |- wp (match ?x with _ => _ end) _ _ => destruct x eqn:?
  | |- wp (let _ := _ in _) _ _ => cbv zeta
  end.

Ltac wp_go := repeat (wp_prim; cbv beta iota delta [fs browser]).

Lemma wpf_call (body : M Empty_set) (f : filesystem) (b : option unit)
    (Q : outcome result -> filesystem -> list event -> Prop) :
  wp body {| fs := f; browser := None |} (fun o st1 ev1 =>
    match o with
    | Normal a => True
    | Returning r => Q (Normal r) (fs st1) ev1
    | Raising e => Q (Raising e) (fs st1) ev1
    | OutOfFuel => Q OutOfFuel (fs st1) ev1
    end) ->
  wpf (call body) f b Q.
Proof.
  intros H. unfold wpf. apply wp_call. eapply wp_conseq; [exact H |].
  intros [[]|r|e|] st1 ev1 HQ; cbn; auto.
Qed.

Lemma wpf_out_of_fuel (f : filesystem) (b : option unit)
    (Q : outcome result -> filesystem -> list event -> Prop) :
  Q OutOfFuel f [] -> wpf out_of_fuel f b Q.
Proof. intros H. split; [reflexivity | exact H]. Qed.

Lemma wpf_conseq (m : M result) (f : filesystem) (b : option unit)
    (P Q : outcome result -> filesystem -> list event -> Prop) :
  wpf m f b P -> (forall o f' ev, P o f' ev -> Q o f' ev) -> wpf m f b Q.
Proof.
  intros H HPQ. unfold wpf. eapply wp_conseq; [exact H |].
  intros o st' ev [Hb HP]. split; [exact Hb |]. destruct o; auto.
Qed.

Lemma wpf_and (m : M result) (f : filesystem) (b : option unit)
    (P Q : outcome result -> filesystem -> list event -> Prop) :
  wpf m f b P -> wpf m f b Q -> wpf m f b (fun o f' ev => P o f' ev /\ Q o f' ev).
Proof.
  unfold wpf, wp. destruct (m _) as [[o st'] ev]. intros [? ?] [? ?].
  split; [assumption |]. destruct o; auto.
Qed.

Lemma wpf_run (m : M result) (f : filesystem) (b : option unit)
    (Q : outcome result -> filesystem -> list event -> Prop) o st' ev :
  wpf m f b Q -> m {| fs := f; browser := b |} = (o, st', ev) -> Q o (fs st') ev.
Proof.
  intros H E. destruct (wp_run _ _ _ _ _ _ H E) as [_ HQ]. destruct o; tauto.
Qed.

(** A call inside a run. *)
Lemma wp_of_wpf (m : M result) (f : filesystem) (b : option unit) P
    (Q : outcome result -> state -> list event -> Prop) :
  wpf m f b P ->
  (forall o f' ev, (forall r, o <> Returning r) -> P o f' ev ->
     Q o {| fs := f'; browser := b |} ev) ->
  wp m {| fs := f; browser := b |} Q.
Proof.
  intros H HPQ. eapply wp_conseq; [exact H |].
  intros o [f' b'] ev [Hb HP]. cbn in Hb. subst b'.
  destruct o; try contradiction; apply HPQ; try exact HP; discriminate.
Qed.

(** The recursive call, met while a run is executed: [H] is what is known of
    the callee. *)
Ltac wp_self H :=
  lazymatch goal with
  | |- wp _ _ _ =>
      eapply wp_of_wpf; [first [apply (H eq_refl) | apply H] |];
      let o := fresh "o" in
      let Hr := fresh "Hr" in
      intros o ? ? Hr ?; destruct o as [?|?|[?|]|];
      [ | destruct (Hr _ eq_refl) | | | ];
      clear Hr; cbv beta iota delta [fs browser]; wp_go
  end.

(** Runs the body: the postcondition is kept folded while the body is
    executed and is unfolded at the ends of the paths. *)
Ltac wp_body H :=
  unfold scrape_and_download_body;
  lazymatch goal with
  | |- wp _ _ ?P =>
      let Post := fresh "Post" in
      set (Post := P);
      wp_go; try wp_self H;
      subst Post; cbv beta iota
  end.

Lemma scrape_and_download_S fuel w d url bt to h :
  scrape_and_download (S fuel) w d url bt to h =
    call (scrape_and_download_body (scrape_and_download fuel w (S d)) w d url bt to h).
Proof. reflexivity. Qed.

(** The shape of every proof about the function: the property of the body,
    then the recursion. *)
Ltac by_body L IH :=
  lazymatch goal with
  | |- wpf (scrape_and_download (S _) _ _ _ _ _ _) _ _ _ =>
      rewrite scrape_and_download_S; apply wpf_call;
      eapply wp_conseq; [apply L; intros; apply IH |];
      let o := fresh "o" in
      intros o ? ? ?; destruct o as [[]| | |]; assumption
  end.

(** *** Depths *)

Lemma depth_ge_probe d l : depth_ge d (probe_events d l).
Proof. unfold depth_ge, probe_events. apply Forall_map. apply Forall_forall. intros; cbn; lia. Qed.

Lemma depth_ge_S d ev : depth_ge (S d) ev -> depth_ge d ev.
Proof. unfold depth_ge. intros H. eapply Forall_impl; [exact H |]. intros; cbn in *; lia. Qed.

Ltac depth_tac :=
  unfold depth_ge in *;
  repeat first
    [ apply Forall_nil_2
    | apply Forall_cons_2; [cbn; lia |]
    | apply Forall_app_2
    | apply depth_ge_probe
    | apply depth_ge_S; assumption
    | assumption ].

Lemma body_depth (self : string -> string -> Z -> bool -> M result) (w : world) (d : nat)
    (url bt : string) (to : Z) (h : bool) (f : filesystem) :
  (forall (g : filesystem) (b : option unit),
     wpf (self url bt to false) g b (fun _ _ ev => depth_ge (S d) ev)) ->
  wp (scrape_and_download_body self w d url bt to h) {| fs := f; browser := None |}
    (fun o _ ev =>
       match o with
       | Normal _ => True
       | _ => depth_ge d ev
       end).
Proof.
  intros Hself. wp_body Hself; depth_tac.
Qed.

Lemma scrape_and_download_depth (fuel : nat) (w : world) (d : nat) (url bt : string) (to : Z)
    (h : bool) (f : filesystem) (b : option unit) :
  wpf (scrape_and_download fuel w d url bt to h) f b (fun _ _ ev => depth_ge d ev).
Proof.
  revert d h f b. induction fuel as [|fuel IH]; intros d h f b.
  - apply wpf_out_of_fuel. apply Forall_nil_2.
  - by_body body_depth IH.
Qed.

(** *** Counting events *)

Lemma count_app f l1 l2 : count f (l1 ++ l2) = (count f l1 + count f l2)%nat.
Proof. induction l1 as [|x l1 IH]; cbn; [reflexivity | rewrite IH; lia]. Qed.

Lemma count_probe k g d l :
  (forall s, g (WaitForSelector s) = false) -> count (at_depth k g) (probe_events d l) = 0%nat.
Proof.
  intros H. induction l as [|s l IH]; [reflexivity|].
  cbn. unfold at_depth at 1. cbn. rewrite H. exact IH.
Qed.

Lemma count_probe_other k g d l : d <> k -> count (at_depth k g) (probe_events d l) = 0%nat.
Proof.
  intros H. induction l as [|s l IH]; [reflexivity|].
  cbn. unfold at_depth at 1. cbn. destruct (Nat.eqb_spec d k); [contradiction|].
  rewrite andb_false_r. exact IH.
Qed.

Lemma count_deeper k g d ev :
  depth_ge d ev -> (k < d)%nat -> count (at_depth k g) ev = 0%nat.
Proof.
  unfold depth_ge. induction 1 as [|[d' a] l Hd _ IH]; intros Hk; [reflexivity|].
  cbn in *. unfold at_depth at 1. cbn. destruct (Nat.eqb_spec d' k); [lia|].
  rewrite andb_false_r. apply IH. exact Hk.
Qed.

Lemma In_count k g a ev :
  In (k, a) ev -> g a = true -> (0 < count (at_depth k g) ev)%nat.
Proof.
  intros Hin Hg. induction ev as [|[d' a'] l IH]; [destruct Hin|].
  destruct Hin as [[= -> ->]|Hin]; cbn.
  - unfold at_depth. cbn. rewrite Hg, Nat.eqb_refl. cbn. lia.
  - specialize (IH Hin). lia.
Qed.


Lemma eqb_S_r d : Nat.eqb d (S d) = false.
Proof. apply Nat.eqb_neq. lia. Qed.

(** Computes [count (at_depth k g) ev] on the events of a run: [ev] is made of
    events of the depth of the run, probes, and the events of the recursive
    call, known to be deeper. *)
Ltac count_tac :=
  repeat
    (cbn [app count at_depth fst snd andb Nat.add
          is_Call is_Launch is_CreateTask is_Click is_Captured
          is_OpenWrite is_Close is_TimedOut is_Getsize is_WaitForSelector];
     rewrite ?Nat.eqb_refl, ?eqb_S_r;
     first
       [ rewrite count_app
       | rewrite count_probe by (intros; reflexivity)
       | rewrite count_probe_other by lia
       | match goal with
         | H : depth_ge (S ?d) ?ev |- context [count (at_depth ?d ?g) ?ev] =>
             rewrite (count_deeper d g (S d) ev H) by lia
         end
       | idtac ]).

(** *** The calls of a trace *)

Lemma calls_app l1 l2 : calls (l1 ++ l2) = calls l1 ++ calls l2.
Proof.
  induction l1 as [|x l1 IH]; cbn; [reflexivity|].
  destruct (is_Call (snd x)); cbn; rewrite IH; reflexivity.
Qed.

Lemma calls_probe d l : calls (probe_events d l) = [].
Proof. induction l; [reflexivity | exact IHl]. Qed.

Ltac calls_tac :=
  repeat
    (cbn [app calls is_Call snd];
     first
       [ rewrite calls_app
       | rewrite calls_probe
       | match goal with
         | H : calls ?ev = _ |- context [calls ?ev] => rewrite H
         end
       | idtac ]).

(** *** The result is consistent *)

Lemma body_consistent (self : string -> string -> Z -> bool -> M result) (w : world) (d : nat)
    (url bt : string) (to : Z) (h : bool) (f : filesystem) :
  (forall (g : filesystem) (b : option unit),
     wpf (self url bt to false) g b
       (fun o _ _ => match o with Normal r => consistent r | _ => True end)) ->
  wp (scrape_and_download_body self w d url bt to h) {| fs := f; browser := None |}
    (fun o _ _ =>
       match o with
       | Returning r => consistent r
       | _ => True
       end).
Proof.
  intros Hself. wp_body Hself;
    try exact I; try assumption; split; intros E; (discriminate E || reflexivity).
Qed.

Lemma scrape_and_download_consistent (fuel : nat) (w : world) (d : nat) (url bt : string)
    (to : Z) (h : bool) (f : filesystem) (b : option unit) :
  wpf (scrape_and_download fuel w d url bt to h) f b
    (fun o _ _ => match o with Normal r => consistent r | _ => True end).
Proof.
  revert d h f b. induction fuel as [|fuel IH]; intros d h f b.
  - apply wpf_out_of_fuel. exact I.
  - by_body body_consistent IH.
Qed.

(** *** Termination and the number of calls *)

Lemma body_calls (self : string -> string -> Z -> bool -> M result) (w : world) (d : nat)
    (url bt : string) (to : Z) (h : bool) (f : filesystem) :
  (h = true -> forall (g : filesystem) (b : option unit),
     wpf (self url bt to false) g b
       (fun o _ ev => o <> OutOfFuel /\ calls ev = [(S d, Call false)])) ->
  wp (scrape_and_download_body self w d url bt to h) {| fs := f; browser := None |}
    (fun o _ ev =>
       o <> OutOfFuel /\
       (calls ev = [(d, Call h)] \/
        h = true /\ calls ev = [(d, Call true); (S d, Call false)])).
Proof.
  intros Hself. wp_body Hself;
    repeat match goal with H : _ /\ _ |- _ => destruct H end;
    try congruence;
    try (split; [discriminate | first [left; calls_tac; reflexivity | right; split; [reflexivity | calls_tac; reflexivity]]]).
Qed.

Lemma scrape_and_download_visible_calls (n : nat) (w : world) (d : nat) (url bt : string)
    (to : Z) (f : filesystem) (b : option unit) :
  wpf (scrape_and_download (S n) w d url bt to false) f b
    (fun o _ ev => o <> OutOfFuel /\ calls ev = [(d, Call false)]).
Proof.
  rewrite scrape_and_download_S. apply wpf_call.
  eapply wp_conseq; [apply body_calls; discriminate |].
  intros [[]|r|e|] st' ev [Ho [Hc|[? _]]]; try discriminate; try congruence;
    (split; [discriminate | exact Hc]).
Qed.

Lemma scrape_and_download_calls (n : nat) (w : world) (d : nat) (url bt : string)
    (to : Z) (h : bool) (f : filesystem) (b : option unit) :
  wpf (scrape_and_download (S (S n)) w d url bt to h) f b
    (fun o _ ev =>
       o <> OutOfFuel /\
       (calls ev = [(d, Call h)] \/
        h = true /\ calls ev = [(d, Call true); (S d, Call false)])).
Proof.
  rewrite scrape_and_download_S. apply wpf_call.
  eapply wp_conseq;
    [apply body_calls; intros _ g b'; apply (scrape_and_download_visible_calls n) |].
  intros [[]|r|e|] st' ev [Ho Hc]; try congruence; (split; [discriminate | exact Hc]).
Qed.

(** *** A download that times out *)

Lemma body_timed_out (self : string -> string -> Z -> bool -> M result) (w : world) (d : nat)
    (url bt : string) (to : Z) (h : bool) (f : filesystem) :
  (forall (g : filesystem) (b : option unit),
     wpf (self url bt to false) g b (fun _ _ ev => depth_ge (S d) ev)) ->
  wp (scrape_and_download_body self w d url bt to h) {| fs := f; browser := None |}
    (fun o _ ev =>
       (0 < count (at_depth d is_TimedOut) ev)%nat ->
       o = Returning (false, Some ("Error: " +:+ TimeoutError_str)) /\
       calls ev = [(d, Call h)]).
Proof.
  intros Hself. wp_body Hself;
    first [ intros Hc; exfalso; revert Hc; count_tac; lia
          | intros _; split; [reflexivity | calls_tac; reflexivity] ].
Qed.

Lemma scrape_and_download_timed_out (n : nat) (w : world) (d : nat) (url bt : string)
    (to : Z) (h : bool) (f : filesystem) (b : option unit) :
  wpf (scrape_and_download (S n) w d url bt to h) f b
    (fun o _ ev =>
       In (d, TimedOut) ev ->
       o = Normal (false, Some ("Error: " +:+ TimeoutError_str)) /\
       calls ev = [(d, Call h)]).
Proof.
  rewrite scrape_and_download_S. apply wpf_call.
  eapply wp_conseq;
    [apply body_timed_out; intros g b'; apply scrape_and_download_depth |].
  intros [[]|r|e|] st' ev H; cbv beta iota; intros Hin;
    destruct (H (In_count _ is_TimedOut _ _ Hin eq_refl)) as [E Hc];
    try discriminate E.
  injection E as ->. split; [reflexivity | exact Hc].
Qed.

(** *** The size check of the retry *)

Lemma body_getsize (self : string -> string -> Z -> bool -> M result) (w : world) (d : nat)
    (url bt : string) (to : Z) (h : bool) (f : filesystem) :
  (h = true -> forall (g : filesystem) (b : option unit),
     wpf (self url bt to false) g b
       (fun o _ ev =>
          depth_ge (S d) ev /\ calls ev = [(S d, Call false)] /\
          ((0 < count (at_depth (S d) is_Getsize) ev)%nat -> o = Normal (true, None)))) ->
  wp (scrape_and_download_body self w d url bt to h) {| fs := f; browser := None |}
    (fun o _ ev =>
       (h = false -> (0 < count (at_depth d is_Getsize) ev)%nat ->
        o = Returning (true, None)) /\
       ((0 < count (at_depth (S d) is_Getsize) ev)%nat ->
        o = Returning (true, None) /\ calls ev = [(d, Call h); (S d, Call false)])).
Proof.
  intros Hself. wp_body Hself;
    repeat match goal with H : _ /\ _ |- _ => destruct H end;
    (split;
     [ first [ intros E; discriminate E
             | intros _ _; reflexivity
             | intros _ Hc; exfalso; revert Hc; count_tac; lia ]
     | first [ intros Hc; exfalso; revert Hc; count_tac; lia
             | intros Hc; split;
               [ match goal with
                 | H : _ -> Normal ?a = Normal _ |- _ =>
                     assert (E : Normal a = Normal (true, None))
                       by (apply H; revert Hc; count_tac; intros; lia);
                     injection E as ->; reflexivity
                 end
               | calls_tac; reflexivity ]
             | intros Hc; exfalso;
               match goal with
               | H : _ -> ?o = Normal _ |- _ =>
                   assert (E : o = Normal (true, None))
                     by (apply H; revert Hc; count_tac; intros; lia);
                   discriminate E
               end ] ]).
Qed.

Lemma scrape_and_download_visible_size (n : nat) (w : world) (d : nat) (url bt : string)
    (to : Z) (f : filesystem) (b : option unit) :
  wpf (scrape_and_download (S n) w d url bt to false) f b
    (fun o _ ev =>
       (0 < count (at_depth d is_Getsize) ev)%nat -> o = Normal (true, None)).
Proof.
  rewrite scrape_and_download_S. apply wpf_call.
  eapply wp_conseq; [apply body_getsize; discriminate |].
  intros [[]|r|e|] st' ev [H _]; cbv beta iota; intros Hc;
    specialize (H eq_refl Hc); try discriminate H.
  injection H as ->. reflexivity.
Qed.

Lemma scrape_and_download_retry_size (n : nat) (w : world) (d : nat) (url bt : string)
    (to : Z) (h : bool) (f : filesystem) (b : option unit) :
  wpf (scrape_and_download (S (S n)) w d url bt to h) f b
    (fun o _ ev =>
       (0 < count (at_depth (S d) is_Getsize) ev)%nat ->
       o = Normal (true, None) /\ calls ev = [(d, Call h); (S d, Call false)]).
Proof.
  rewrite scrape_and_download_S. apply wpf_call.
  eapply wp_conseq.
  - apply body_getsize. intros _ g b'.
    apply wpf_and; [apply scrape_and_download_depth |].
    apply wpf_and.
    + eapply wpf_conseq; [apply (scrape_and_download_visible_calls n) |].
      intros o f' ev [_ H]. exact H.
    + apply (scrape_and_download_visible_size n).
  - intros [[]|r|e|] st' ev [_ H]; cbv beta iota; intros Hc;
      destruct (H Hc) as [E Hcalls]; try discriminate E.
    injection E as ->. split; [reflexivity | exact Hcalls].
Qed.

(** *** The browser is closed *)

Lemma last_app_cons {A} (l1 : list A) x l2 : last (l1 ++ x :: l2) = last (x :: l2).
Proof.
  induction l1 as [|y l1 IH]; [reflexivity|].
  cbn [app]. destruct l1; cbn in *; exact IH.
Qed.

Lemma last_cons_app_cons {A} (y : A) l1 x l2 : last (y :: l1 ++ x :: l2) = last (x :: l2).
Proof. apply (last_app_cons (y :: l1)). Qed.

Ltac last_tac :=
  rewrite <- ?app_assoc;
  repeat (cbn [app last]; rewrite ?last_app_cons, ?last_cons_app_cons);
  reflexivity.

Lemma body_close (self : string -> string -> Z -> bool -> M result) (w : world) (d : nat)
    (url bt : string) (to : Z) (h : bool) (f : filesystem) :
  (h = true -> forall (g : filesystem) (b : option unit),
     wpf (self url bt to false) g b (fun o _ ev => depth_ge (S d) ev /\ o <> OutOfFuel)) ->
  launch (attempt w d) (browser_class_of bt) h = returns tt ->
  wp (scrape_and_download_body self w d url bt to h) {| fs := f; browser := None |}
    (fun o _ ev =>
       (0 < count (at_depth d is_Launch) ev)%nat ->
       last ev = Some (d, Close) /\ count (at_depth d is_Close) ev = 1%nat).
Proof.
  intros Hself Hl. wp_body Hself;
    repeat match goal with H : _ /\ _ |- _ => destruct H end;
    first [ congruence
          | intros Hc; exfalso; revert Hc; count_tac; lia
          | intros _; split; [last_tac | count_tac; reflexivity] ].
Qed.

Lemma scrape_and_download_close (n : nat) (w : world) (d : nat) (url bt : string)
    (to : Z) (h : bool) (f : filesystem) (b : option unit) :
  (h = true -> (1 <= n)%nat) ->
  launch (attempt w d) (browser_class_of bt) h = returns tt ->
  wpf (scrape_and_download (S n) w d url bt to h) f b
    (fun o _ ev =>
       (0 < count (at_depth d is_Launch) ev)%nat ->
       last ev = Some (d, Close) /\ count (at_depth d is_Close) ev = 1%nat).
Proof.
  intros Hn Hl. rewrite scrape_and_download_S. apply wpf_call.
  eapply wp_conseq.
  - apply body_close; [| exact Hl]. intros Hh g b'.
    destruct n as [|n]; [specialize (Hn Hh); lia |].
    apply wpf_and; [apply scrape_and_download_depth |].
    eapply wpf_conseq; [apply (scrape_and_download_visible_calls n) |].
    intros o f' ev [H _]. exact H.
  - intros [[]|r|e|] st' ev H; exact H.
Qed.

(** *** No button *)




(** *** The order of events *)













(** *** Directories stay *)

Lemma dirs_kept_refl (f : filesystem) : dirs_kept f f.
Proof. intros p H. exact H. Qed.

Lemma dirs_kept_trans (f g k : filesystem) : dirs_kept f g -> dirs_kept g k -> dirs_kept f k.
Proof. intros H1 H2 p H. apply H2, H1, H. Qed.

Lemma dirs_kept_ensure_dir (p : path) (f g : filesystem) :
  dirs_kept f g -> dirs_kept f (ensure_dir p g).
Proof.
  intros H q Hq. specialize (H q Hq). unfold ensure_dir.
  destruct (g !! p) eqn:E; [exact H |].
  destruct (decide (p = q)) as [->|Hne].
  - apply lookup_insert_eq.
  - rewrite lookup_insert_ne by exact Hne. exact H.
Qed.

Lemma dirs_kept_insert_file (p : path) (c : list Byte.byte) (f g : filesystem) :
  g !! p <> Some Dir -> dirs_kept f g -> dirs_kept f (<[p := File c]> g).
Proof.
  intros Hp H q Hq. specialize (H q Hq).
  destruct (decide (p = q)) as [->|Hne]; [contradiction |].
  rewrite lookup_insert_ne by exact Hne. exact H.
Qed.

Lemma fs_insert_file_not_dir (p : path) (c : list Byte.byte) (g : filesystem) : <[p := File c]> g !! p <> Some Dir.
Proof. rewrite fs_lookup_insert. discriminate. Qed.

Ltac dirs_tac :=
  repeat first
    [ apply dirs_kept_refl
    | assumption
    | apply dirs_kept_ensure_dir
    | apply dirs_kept_insert_file; [first [assumption | apply fs_insert_file_not_dir] |]
    | match goal with
      | H : dirs_kept ?g ?k |- dirs_kept _ ?k => apply (fun X => dirs_kept_trans _ g k X H)
      end ].

Lemma body_dirs (self : string -> string -> Z -> bool -> M result) (w : world) (d : nat)
    (url bt : string) (to : Z) (h : bool) (f0 f : filesystem) :
  (forall (g : filesystem) (b : option unit),
     wpf (self url bt to false) g b (fun _ g' _ => dirs_kept g g')) ->
  dirs_kept f0 f ->
  wp (scrape_and_download_body self w d url bt to h) {| fs := f; browser := None |}
    (fun o st' _ =>
       dirs_kept f0 (fs st') /\
       ((forall c, f !! (getcwd w ++ ["downloads"%string]) <> Some (File c)) ->
        async_playwright (attempt w d) = returns tt ->
        fs st' !! (getcwd w ++ ["downloads"%string]) = Some Dir) /\
       match o with
       | Returning _ => fs st' !! (getcwd w ++ ["downloads"%string]) = Some Dir
       | _ => True
       end).
Proof.
  intros Hself H0. wp_body Hself; cbn [fs];
    (split; [dirs_tac | split];
     [ first [ congruence
             | intros Hc _;
               match goal with
               | |- ?g !! ?p = Some Dir =>
                   assert (Hk : dirs_kept (ensure_dir p f) g) by dirs_tac;
                   apply Hk, ensure_dir_lookup, Hc
               end ]
     | first [ exact I
             | match goal with
               | Hc : forall c, f !! ?p <> Some (File c) |- ?g !! ?p = Some Dir =>
                   assert (Hk : dirs_kept (ensure_dir p f) g) by dirs_tac;
                   apply Hk, ensure_dir_lookup, Hc
               end ] ]).
Qed.

Lemma scrape_and_download_dirs_kept (fuel : nat) (w : world) (d : nat) (url bt : string)
    (to : Z) (h : bool) (f : filesystem) (b : option unit) :
  wpf (scrape_and_download fuel w d url bt to h) f b (fun _ f' _ => dirs_kept f f').
Proof.
  revert d h f b. induction fuel as [|fuel IH]; intros d h f b.
  - apply wpf_out_of_fuel. apply dirs_kept_refl.
  - rewrite scrape_and_download_S. apply wpf_call.
    eapply wp_conseq.
    + apply (body_dirs _ w d url bt to h f f); [intros g b'; apply IH | apply dirs_kept_refl].
    + intros [[]|r|e|] st' ev (H & _); exact H.
Qed.


(** *** The copy *)

Lemma dest_ne_save (cwd : path) (name name' : string) :
  cwd ++ [name] <> (cwd ++ ["downloads"%string]) ++ [name'].
Proof.
  intros E. apply (f_equal (@length string)) in E.
  rewrite !length_app in E. cbn in E. lia.
Qed.

Lemma body_copied (self : string -> string -> Z -> bool -> M result) (w : world) (d : nat)
    (url bt : string) (to : Z) (h : bool) (f : filesystem) :
  (forall (g : filesystem) (b : option unit),
     wpf (self url bt to false) g b
       (fun o g' _ => o = Normal (true, None) -> copied (getcwd w) g')) ->
  wp (scrape_and_download_body self w d url bt to h) {| fs := f; browser := None |}
    (fun o st' _ => o = Returning (true, None) -> copied (getcwd w) (fs st')).
Proof.
  intros Hself. wp_body Hself; cbn [fs];
    first [ intros E; discriminate E
          | intros _;
            match goal with
            | |- copied _ (<[_ ++ [?n] := File ?c]> _) => exists n, c
            end;
            split;
            [ rewrite !lookup_insert_ne by apply dest_ne_save;
              apply fs_lookup_insert
            | apply fs_lookup_insert ]
          | intros E; injection E as ->; auto ].
Qed.

Lemma scrape_and_download_copied (fuel : nat) (w : world) (d : nat) (url bt : string)
    (to : Z) (h : bool) (f : filesystem) (b : option unit) :
  wpf (scrape_and_download fuel w d url bt to h) f b
    (fun o f' _ => o = Normal (true, None) -> copied (getcwd w) f').
Proof.
  revert d h f b. induction fuel as [|fuel IH]; intros d h f b.
  - apply wpf_out_of_fuel. discriminate.
  - rewrite scrape_and_download_S. apply wpf_call.
    eapply wp_conseq; [apply body_copied; intros g b'; apply IH |].
    intros [[]|r|e|] st' ev H; cbv beta iota; intros E; try discriminate E.
    injection E as ->. apply H. reflexivity.
Qed.


(** *** What [browser.close()] answers does not matter *)

Lemma bind_ext {A B} (m m' : M A) (f f' : A -> M B) :
  (forall st, m st = m' st) -> (forall a st, f a st = f' a st) ->
  forall st, bind m f st = bind m' f' st.
Proof.
  intros Hm Hf st. unfold bind. rewrite Hm.
  destruct (m' st) as [[[a|r|e|] st1] ev1]; try reflexivity. rewrite Hf. reflexivity.
Qed.

Lemma try_except_ext {A} (m m' : M A) (k k' : exn -> M A) :
  (forall st, m st = m' st) -> (forall e st, k e st = k' e st) ->
  forall st, try_except m k st = try_except m' k' st.
Proof.
  intros Hm Hk st. unfold try_except. rewrite Hm.
  destruct (m' st) as [[[a|r|e|] st1] ev1]; try reflexivity. rewrite Hk. reflexivity.
Qed.

Lemma try_finally_ext {A} (m m' : M A) (fin fin' : M unit) :
  (forall st, m st = m' st) -> (forall st, fin st = fin' st) ->
  forall st, try_finally m fin st = try_finally m' fin' st.
Proof.
  intros Hm Hf st. unfold try_finally. rewrite Hm.
  destruct (m' st) as [[[a|r|e|] st1] ev1]; try reflexivity; rewrite Hf; reflexivity.
Qed.

Lemma call_ext (m m' : M Empty_set) :
  (forall st, m st = m' st) -> forall st, call m st = call m' st.
Proof. intros Hm st. unfold call. rewrite Hm. reflexivity. Qed.

Lemma finally_with_close c w d st :
  try_except (browser_close d (attempt (with_close c w) d)) (fun _ => ret tt) st =
  try_except (browser_close d (attempt w d)) (fun _ => ret tt) st.
Proof.
  destruct st as [f [[]|]]; unfold try_except, browser_close, extern, bind, emit, ret, raise; cbn.
  - destruct (c d) as [[]|m1], (close (attempt w d)) as [[]|m2]; reflexivity.
  - reflexivity.
Qed.

Lemma find_download_button_with_close c w d sels db st :
  find_download_button d (attempt (with_close c w) d) sels db st =
  find_download_button d (attempt w d) sels db st.
Proof.
  revert db st. induction sels as [|s rest IH]; intros db st; [reflexivity|].
  cbn [find_download_button]. apply bind_ext; [reflexivity|].
  intros [v|] st'; [destruct (truthy v); [reflexivity |] |]; apply IH.
Qed.

Ltac ext_tac H :=
  repeat
    (intros; cbv beta;
     first
       [ apply H
       | apply finally_with_close
       | apply find_download_button_with_close
       | apply bind_ext
       | apply try_except_ext
       | apply try_finally_ext
       | match goal with
         | |- (match ?x with _ => _ end) _ = (match ?x with _ => _ end) _ => destruct x
         end
       | reflexivity ]).

Lemma body_with_close (self self' : string -> string -> Z -> bool -> M result) c w d
    (url bt : string) (to : Z) (h : bool) :
  (forall st, self' url bt to false st = self url bt to false st) ->
  forall st,
    scrape_and_download_body self' (with_close c w) d url bt to h st =
    scrape_and_download_body self w d url bt to h st.
Proof.
  intros Hself. unfold scrape_and_download_body. cbv zeta. ext_tac Hself.
Qed.

Lemma scrape_and_download_with_close c fuel w d (url bt : string) (to : Z) (h : bool) st :
  scrape_and_download fuel (with_close c w) d url bt to h st =
  scrape_and_download fuel w d url bt to h st.
Proof.
  revert d h st. induction fuel as [|fuel IH]; intros d h st; [reflexivity|].
  rewrite !scrape_and_download_S. apply call_ext.
  apply body_with_close. intros st'. apply IH.
Qed.

(** *** The resolver *)

Lemma find_download_button_first d e l1 s l2 db st el :
  (forall s', In s' l1 -> forall x, wait_for_selector e s' <> returns (Some x)) ->
  wait_for_selector e s = returns (Some el) ->
  find_download_button d e (l1 ++ s :: l2) db st =
    (Normal (Some el), st, probe_events d (l1 ++ [s])).
Proof.
  intros Hl1 Hs. rewrite find_download_button_resolve.
  assert (E : resolve e (l1 ++ s :: l2) db = (Some el, l1 ++ [s])).
  { revert db. induction l1 as [|s1 l1 IH]; intros db; cbn [app resolve].
    - rewrite Hs. reflexivity.
    - destruct (wait_for_selector e s1) as [[x|]|msg] eqn:E1.
      + destruct (Hl1 s1 (or_introl eq_refl) x E1).
      + rewrite IH; [reflexivity | intros s' Hin; apply Hl1; right; exact Hin].
      + rewrite IH; [reflexivity | intros s' Hin; apply Hl1; right; exact Hin]. }
  rewrite E. reflexivity.
Qed.


(** * The properties of the specification *)

Lemma run_eta {A B C} (r : A * B * C) : r = (r.1.1, r.1.2, r.2).
Proof. destruct r as [[? ?] ?]. reflexivity. Qed.

(** Finds an event in the trace of a concrete run. *)
Ltac in_trace := vm_compute; repeat (first [left; reflexivity | right]).

(** C1, as the code has it.  When the retry made after a small headless
    download (the call at depth [S d]) also materializes a file below the
    100-byte threshold, the call returns the success value [(True, None)]:
    the small file is only warned about.  No third call is made: the calls
    are the headless one and its single retry. *)
Theorem retry_small_file_is_accepted (fuel : nat) (w : world) (d : nat) (url bt : string)
    (to : Z) (st : state) o st' ev (p : path) (size : Z) :
  (2 <= fuel)%nat ->
  scrape_and_download fuel w d url bt to true st = (o, st', ev) ->
  In (S d, Getsize p size) ev ->
  size < 100 ->
  o = Normal (true, None) /\ calls ev = [(d, Call true); (S d, Call false)].
Proof.
  intros Hfuel Hrun Hin _. destruct fuel as [|[|n]]; try lia. destruct st as [f b].
  apply (wpf_run _ _ _ _ _ _ _ (scrape_and_download_retry_size n w d url bt to true f b) Hrun).
  apply (In_count _ is_Getsize _ _ Hin). reflexivity.
Qed.

Lemma retry_small_file_is_accepted_witness :
  run_small.1.1 = Normal (true, None) /\
  calls run_small.2 = [(0%nat, Call true); (1%nat, Call false)].
Proof.
  apply (retry_small_file_is_accepted 2 w_small 0 url0 "chromium" 60
           start _ run_small.1.2 _ (home ++ ["data.csv"%string]) 40).
  - lia.
  - apply run_eta.
  - in_trace.
  - lia.
Defined.

(** C1, as stated, fails: both attempts download 40 bytes, the retry's size
    check sees 40 bytes, and the call returns [(True, None)], not a failure
    with reason "file too small". *)
Lemma retry_small_file_counterexample :
  In (1%nat, Getsize (home ++ ["data.csv"%string]) 40) run_small.2 /\
  run_small.1.1 = Normal (true, None) /\
  run_small.1.1 <> Normal (false, Some "file too small"%string).
Proof.
  split; [in_trace |]. split; [vm_compute; reflexivity | vm_compute; discriminate].
Qed.

(** C2.  In a call that has launched its browser, [browser.close()] is
    called exactly once by that call, and it is the last thing the call does
    before its result is returned, on every path (the statement is for every
    outcome [o]: success, any failure, an exception caught at the boundary).
    What [close] answers does not matter: with any other answers, raising
    included, the outcome, the file system and the events are the same. *)
Theorem session_closed_exactly_once (fuel : nat) (w : world) (d : nat) (url bt : string)
    (to : Z) (h : bool) (st : state) o st' ev :
  (2 <= fuel)%nat ->
  scrape_and_download fuel w d url bt to h st = (o, st', ev) ->
  In (d, Launch (browser_class_of bt) h) ev ->
  launch (attempt w d) (browser_class_of bt) h = returns tt ->
  last ev = Some (d, Close) /\
  count (at_depth d is_Close) ev = 1%nat /\
  forall c, scrape_and_download fuel (with_close c w) d url bt to h st = (o, st', ev).
Proof.
  intros Hfuel Hrun Hin Hl. destruct fuel as [|n]; [lia |]. destruct st as [f b].
  assert (Hc : (0 < count (at_depth d is_Launch) ev)%nat)
    by (apply (In_count _ is_Launch _ _ Hin); reflexivity).
  destruct (wpf_run _ _ _ _ _ _ _
              (scrape_and_download_close n w d url bt to h f b ltac:(lia) Hl) Hrun Hc)
    as [H1 H2].
  split; [exact H1 |]. split; [exact H2 |].
  intros c. rewrite scrape_and_download_with_close. exact Hrun.
Qed.

Lemma session_closed_exactly_once_witness :
  last run_close_raises.2 = Some (0%nat, Close) /\
  count (at_depth 0 is_Close) run_close_raises.2 = 1%nat /\
  forall c,
    scrape_and_download 2 (with_close c w_close_raises) 0 url0 "firefox" 60 true start =
      (run_close_raises.1.1, run_close_raises.1.2, run_close_raises.2).
Proof.
  apply (session_closed_exactly_once 2 w_close_raises 0 url0 "firefox" 60 true start).
  - lia.
  - apply run_eta.
  - in_trace.
  - reflexivity.
Defined.

(** C3.  Whatever the list of strategies and the page: when the strategies
    in [l1] have no visible match (each raises or returns nothing) and the
    next one, [s], matches [el], the loop yields [el], and it has probed
    [l1] and [s] only, none of the later strategies [l2], whether they
    would match or not. *)
Theorem resolver_first_match (d : nat) (e : env) (l1 : list string) (s : string)
    (l2 : list string) (download_button : option element) (st : state) (el : element) :
  (forall s', In s' l1 -> forall x, wait_for_selector e s' <> returns (Some x)) ->
  wait_for_selector e s = returns (Some el) ->
  find_download_button d e (l1 ++ s :: l2) download_button st =
    (Normal (Some el), st, probe_events d (l1 ++ [s])).
Proof. apply find_download_button_first. Qed.

Lemma resolver_first_match_witness :
  find_download_button 0 (page 5000) selectors None start =
    (Normal (Some 7%nat), start,
     [(0%nat, WaitForSelector "#download-sheet");
      (0%nat, WaitForSelector "button#download-sheet")]) /\
  wait_for_selector (page 5000) (nth 2 selectors EmptyString) = returns (Some 9%nat).
Proof.
  split; [| reflexivity].
  apply (resolver_first_match 0 (page 5000) ["#download-sheet"%string] "button#download-sheet"
           (tl (tl selectors)) None start 7%nat).
  - intros s' [<-|[]] x. vm_compute. discriminate.
  - reflexivity.
Defined.



(** C5.  With fuel for two calls the function always ends, and the calls it
    makes are the call itself and at most one more: a headless call may make
    one call with [headless = False]; that call makes none.  So the flag
    flips from true to false at most once. *)
Theorem at_most_one_escalation (fuel : nat) (w : world) (d : nat) (url bt : string)
    (to : Z) (h : bool) (st : state) o st' ev :
  (2 <= fuel)%nat ->
  scrape_and_download fuel w d url bt to h st = (o, st', ev) ->
  o <> OutOfFuel /\
  (calls ev = [(d, Call h)] \/
   h = true /\ calls ev = [(d, Call true); (S d, Call false)]).
Proof.
  intros Hfuel Hrun. destruct fuel as [|[|n]]; try lia. destruct st as [f b].
  exact (wpf_run _ _ _ _ _ _ _ (scrape_and_download_calls n w d url bt to h f b) Hrun).
Qed.

Lemma at_most_one_escalation_witness :
  run_small.1.1 <> OutOfFuel /\
  (calls run_small.2 = [(0%nat, Call true)] \/
   true = true /\ calls run_small.2 = [(0%nat, Call true); (1%nat, Call false)]).
Proof.
  apply (at_most_one_escalation 2 w_small 0 url0 "chromium" 60 true start _ run_small.1.2).
  - lia.
  - apply run_eta.
Defined.



(** C7.  When the wait for the download times out in a call, that call
    returns a failure, whose message is "Error: " followed by the text of
    the [TimeoutError], and it makes no further call. *)
Theorem download_timeout_fails (fuel : nat) (w : world) (d : nat) (url bt : string)
    (to : Z) (h : bool) (st : state) o st' ev :
  (1 <= fuel)%nat ->
  scrape_and_download fuel w d url bt to h st = (o, st', ev) ->
  In (d, TimedOut) ev ->
  o = Normal (false, Some ("Error: " +:+ TimeoutError_str)) /\
  calls ev = [(d, Call h)].
Proof.
  intros Hfuel Hrun Hin. destruct fuel as [|n]; [lia |]. destruct st as [f b].
  exact (wpf_run _ _ _ _ _ _ _ (scrape_and_download_timed_out n w d url bt to h f b) Hrun Hin).
Qed.

Lemma download_timeout_fails_witness :
  wait_for_event (attempt w_timeout 0) = pending /\
  run_timeout.1.1 = Normal (false, Some ("Error: " +:+ TimeoutError_str)) /\
  calls run_timeout.2 = [(0%nat, Call true)].
Proof.
  split; [reflexivity |].
  apply (download_timeout_fails 2 w_timeout 0 url0 "chromium" 60 true start _ run_timeout.1.2).
  - lia.
  - apply run_eta.
  - in_trace.
Defined.

(** C8.  Every value the function returns is a success with no message or a
    failure with one: the flag is true exactly when the message is absent. *)
Theorem result_is_consistent (fuel : nat) (w : world) (d : nat) (url bt : string)
    (to : Z) (h : bool) (st : state) (r : result) st' ev :
  scrape_and_download fuel w d url bt to h st = (Normal r, st', ev) ->
  fst r = true <-> snd r = None.
Proof.
  intros Hrun. destruct st as [f b].
  exact (wpf_run _ _ _ _ _ _ _ (scrape_and_download_consistent fuel w d url bt to h f b) Hrun).
Qed.

Lemma result_is_consistent_witness :
  fst (false, Some "Download button not found with any selector"%string) = true <->
  snd (false, Some "Download button not found with any selector"%string) = None.
Proof.
  apply (result_is_consistent 2 w_no_button 0 url0 "chromium" 60 true start _
           run_no_button.1.2 run_no_button.2).
  vm_compute. reflexivity.
Defined.







(** * Further properties of the code *)

(** ** [scrape_and_download] *)

(** *** Which exceptions leave the function *)




(** *** A launch that fails *)

Lemma body_launch_fails (self : string -> string -> Z -> bool -> M result) (w : world) (d : nat)
    (url bt : string) (to : Z) (h : bool) (f : filesystem) (msg : string) :
  launch (attempt w d) (browser_class_of bt) h = raises msg ->
  async_playwright (attempt w d) = returns tt ->
  (forall c, f !! (getcwd w ++ ["downloads"%string]) <> Some (File c)) ->
  wp (scrape_and_download_body self w d url bt to h) {| fs := f; browser := None |}
    (fun o st' ev =>
       o = Returning (false, Some ("Error: " +:+ msg)) /\
       ev = [(d, Call h); (d, AsyncPlaywright);
             (d, Makedirs (getcwd w ++ ["downloads"%string]));
             (d, Launch (browser_class_of bt) h)] /\
       fs st' = ensure_dir (getcwd w ++ ["downloads"%string]) f).
Proof.
  intros Hl Ha Hf. wp_body I;
    first [ congruence
          | exfalso; eapply Hf; eassumption
          | match goal with
            | H : launch _ _ _ = raises ?m |- _ =>
                replace m with msg by congruence; repeat split
            end ].
Qed.

(** *** The message that is never returned *)

Lemma body_never_timed_out_message (self : string -> string -> Z -> bool -> M result)
    (w : world) (d : nat) (url bt : string) (to : Z) (h : bool) (f : filesystem) :
  (forall (g : filesystem) (b : option unit),
     wpf (self url bt to false) g b
       (fun o _ _ => o <> Normal (false, Some "Download failed or timed out"%string))) ->
  wp (scrape_and_download_body self w d url bt to h) {| fs := f; browser := None |}
    (fun o _ _ => o <> Returning (false, Some "Download failed or timed out"%string)).
Proof.
  intros Hself. wp_body Hself;
    first [ intros E; discriminate E
          | intros E; injection E as E; congruence ].
Qed.

Lemma scrape_and_download_never_timed_out_message (fuel : nat) (w : world) (d : nat)
    (url bt : string) (to : Z) (h : bool) (f : filesystem) (b : option unit) :
  wpf (scrape_and_download fuel w d url bt to h) f b
    (fun o _ _ => o <> Normal (false, Some "Download failed or timed out"%string)).
Proof.
  revert d h f b. induction fuel as [|fuel IH]; intros d h f b.
  - apply wpf_out_of_fuel. discriminate.
  - rewrite scrape_and_download_S. apply wpf_call.
    eapply wp_conseq; [apply body_never_timed_out_message; intros g b'; apply IH |].
    intros [[]|r|e|] st' ev H; cbv beta iota; try discriminate.
    intros E. apply H. injection E as ->. reflexivity.
Qed.

(** *** A small file in headless mode is always retried *)

Lemma at_depth_small_Getsize (d : nat) (p : path) (n : Z) :
  at_depth d is_small_Getsize (d, Getsize p n) = (n <? 100).
Proof.
  unfold at_depth. cbn [fst snd is_small_Getsize].
  rewrite Nat.eqb_refl. apply andb_true_r.
Qed.

(** [count_tac], knowing the recognisers of this part too. *)
Ltac count_more :=
  repeat
    (cbn [app count at_depth fst snd andb negb Nat.add
          is_Call is_Launch is_CreateTask is_Click is_Captured
          is_OpenWrite is_Close is_TimedOut is_Getsize is_WaitForSelector
          is_small_Getsize];
     rewrite ?Nat.eqb_refl, ?eqb_S_r, ?at_depth_small_Getsize;
     repeat match goal with
            | H : (_ <? 100) = _ |- _ => rewrite H
            end;
     first
       [ rewrite count_app
       | rewrite count_probe by (intros; reflexivity)
       | rewrite count_probe_other by lia
       | match goal with
         | H : depth_ge (S ?d) ?ev |- context [count (at_depth ?d ?g) ?ev] =>
             rewrite (count_deeper d g (S d) ev H) by lia
         end
       | idtac ]).

Lemma body_small_retried (self : string -> string -> Z -> bool -> M result) (w : world) (d : nat)
    (url bt : string) (to : Z) (f : filesystem) :
  (forall (g : filesystem) (b : option unit),
     wpf (self url bt to false) g b
       (fun _ _ ev => depth_ge (S d) ev /\ calls ev = [(S d, Call false)])) ->
  wp (scrape_and_download_body self w d url bt to true) {| fs := f; browser := None |}
    (fun _ _ ev =>
       (0 < count (at_depth d is_small_Getsize) ev)%nat <->
       calls ev = [(d, Call true); (S d, Call false)]).
Proof.
  intros Hself. wp_body Hself;
    repeat match goal with H : _ /\ _ |- _ => destruct H end;
    (split;
     [ first [ intros _; calls_tac; reflexivity
             | intros Hc; exfalso; revert Hc; count_more; lia ]
     | first [ intros _; count_more; lia
             | calls_tac; intros Hc; discriminate Hc ] ]).
Qed.

Lemma scrape_and_download_small_retried (n : nat) (w : world) (d : nat) (url bt : string)
    (to : Z) (f : filesystem) (b : option unit) :
  wpf (scrape_and_download (S (S n)) w d url bt to true) f b
    (fun _ _ ev =>
       (0 < count (at_depth d is_small_Getsize) ev)%nat <->
       calls ev = [(d, Call true); (S d, Call false)]).
Proof.
  rewrite scrape_and_download_S. apply wpf_call.
  eapply wp_conseq.
  - apply body_small_retried. intros g b'.
    apply wpf_and; [apply scrape_and_download_depth |].
    eapply wpf_conseq; [apply (scrape_and_download_visible_calls n) |].
    intros o f' ev [_ H]. exact H.
  - intros [[]|r|e|] st' ev H; exact H.
Qed.

(** *** The retry repeats the request *)

Lemma browser_class_eqb_refl (c : browser_class) : browser_class_eqb c c = true.
Proof. destruct c; reflexivity. Qed.

Lemma on_request_deeper (c : browser_class) (url : string) (to : Z) (d : nat) (h : bool)
    (ev : list event) :
  depth_ge (S d) ev ->
  Forall (fun x => on_request c url to (S d) false x = true) ev ->
  Forall (fun x => on_request c url to d h x = true) ev.
Proof.
  unfold depth_ge. intros Hd H. induction H as [|[k a] ev Hx _ IH].
  - apply Forall_nil_2.
  - apply Forall_cons in Hd as [Hk Hd]. apply Forall_cons_2; [| exact (IH Hd)].
    cbn [fst] in Hk. revert Hx. unfold on_request. cbn [fst snd].
    replace (Nat.eqb k d) with false by (symmetry; apply Nat.eqb_neq; lia).
    destruct (Nat.eqb k (S d)); intros Hx; exact Hx.
Qed.

Lemma on_request_probe (c : browser_class) (url : string) (to : Z) (d k : nat) (h : bool)
    (l : list string) :
  Forall (fun x => on_request c url to d h x = true) (probe_events k l).
Proof.
  unfold probe_events. apply Forall_map. apply Forall_forall. intros; reflexivity.
Qed.

Ltac request_tac :=
  repeat first
    [ apply Forall_nil_2
    | apply Forall_cons_2;
      [ unfold on_request; cbn [fst snd];
        rewrite ?Nat.eqb_refl, ?browser_class_eqb_refl, ?Bool.eqb_reflx, ?String.eqb_refl,
          ?Z.eqb_refl;
        reflexivity |]
    | apply Forall_app_2
    | apply on_request_probe
    | apply on_request_deeper; assumption ].

Lemma body_request (self : string -> string -> Z -> bool -> M result) (w : world) (d : nat)
    (url bt : string) (to : Z) (h : bool) (f : filesystem) :
  (forall (g : filesystem) (b : option unit),
     wpf (self url bt to false) g b
       (fun _ _ ev =>
          depth_ge (S d) ev /\
          Forall (fun x => on_request (browser_class_of bt) url to (S d) false x = true) ev)) ->
  wp (scrape_and_download_body self w d url bt to h) {| fs := f; browser := None |}
    (fun _ _ ev => Forall (fun x => on_request (browser_class_of bt) url to d h x = true) ev).
Proof.
  intros Hself. wp_body Hself;
    repeat match goal with H : _ /\ _ |- _ => destruct H end;
    request_tac.
Qed.

Lemma scrape_and_download_request (fuel : nat) (w : world) (d : nat) (url bt : string)
    (to : Z) (h : bool) (f : filesystem) (b : option unit) :
  wpf (scrape_and_download fuel w d url bt to h) f b
    (fun _ _ ev => Forall (fun x => on_request (browser_class_of bt) url to d h x = true) ev).
Proof.
  revert d h f b. induction fuel as [|fuel IH]; intros d h f b.
  - apply wpf_out_of_fuel. apply Forall_nil_2.
  - rewrite scrape_and_download_S. apply wpf_call.
    eapply wp_conseq.
    + apply body_request. intros g b'.
      apply wpf_and; [apply scrape_and_download_depth | apply IH].
    + intros [[]|r|e|] st' ev H; exact H.
Qed.

(** *** Nothing is written elsewhere *)

Lemma same_outside_refl (cwd : path) (f : filesystem) : same_outside cwd f f.
Proof. intros p _ _. reflexivity. Qed.

Lemma same_outside_trans (cwd : path) (f g k : filesystem) :
  same_outside cwd f g -> same_outside cwd g k -> same_outside cwd f k.
Proof. intros H1 H2 p Ha Hb. rewrite (H2 p Ha Hb). apply (H1 p Ha Hb). Qed.

Lemma same_outside_insert_cwd (cwd : path) (x : string) (n : node) (f g : filesystem) :
  same_outside cwd f g -> same_outside cwd f (<[cwd ++ [x] := n]> g).
Proof.
  intros H p Ha Hb. rewrite lookup_insert_ne by (apply not_eq_sym, Ha). apply (H p Ha Hb).
Qed.

Lemma same_outside_insert_downloads (cwd : path) (x : string) (n : node) (f g : filesystem) :
  same_outside cwd f g ->
  same_outside cwd f (<[(cwd ++ ["downloads"%string]) ++ [x] := n]> g).
Proof.
  intros H p Ha Hb. rewrite lookup_insert_ne by (apply not_eq_sym, Hb). apply (H p Ha Hb).
Qed.

Lemma same_outside_ensure_dir (cwd : path) (x : string) (f g : filesystem) :
  same_outside cwd f g -> same_outside cwd f (ensure_dir (cwd ++ [x]) g).
Proof.
  intros H. unfold ensure_dir. destruct (g !! (cwd ++ [x])); [exact H |].
  apply same_outside_insert_cwd, H.
Qed.

Ltac outside_tac :=
  repeat first
    [ apply same_outside_refl
    | assumption
    | apply same_outside_ensure_dir
    | apply same_outside_insert_cwd
    | apply same_outside_insert_downloads
    | match goal with
      | H : same_outside ?c ?g ?k |- same_outside ?c _ ?k =>
          apply (fun X => same_outside_trans c _ g k X H)
      end ].

Lemma body_outside (self : string -> string -> Z -> bool -> M result) (w : world) (d : nat)
    (url bt : string) (to : Z) (h : bool) (f : filesystem) :
  (forall (g : filesystem) (b : option unit),
     wpf (self url bt to false) g b (fun _ g' _ => same_outside (getcwd w) g g')) ->
  wp (scrape_and_download_body self w d url bt to h) {| fs := f; browser := None |}
    (fun _ st' _ => same_outside (getcwd w) f (fs st')).
Proof.
  intros Hself. wp_body Hself; cbn [fs]; outside_tac.
Qed.

Lemma scrape_and_download_outside (fuel : nat) (w : world) (d : nat) (url bt : string)
    (to : Z) (h : bool) (f : filesystem) (b : option unit) :
  wpf (scrape_and_download fuel w d url bt to h) f b
    (fun _ f' _ => same_outside (getcwd w) f f').
Proof.
  revert d h f b. induction fuel as [|fuel IH]; intros d h f b.
  - apply wpf_out_of_fuel. apply same_outside_refl.
  - rewrite scrape_and_download_S. apply wpf_call.
    eapply wp_conseq.
    + apply body_outside. intros g b'. apply IH.
    + intros [[]|r|e|] st' ev H; exact H.
Qed.

(** *** The properties, for a run of the function *)




(** X2.  When the launch of the browser raises, the call returns the
    failure [(False, "Error: " + message)]; it has done nothing but start
    Playwright, make the directory and try the launch: in particular the
    [finally] clause has closed nothing, there being no browser. *)
Theorem launch_failure_closes_nothing (fuel : nat) (w : world) (d : nat) (url bt : string)
    (to : Z) (h : bool) (st : state) o st' ev (msg : string) :
  (1 <= fuel)%nat ->
  scrape_and_download fuel w d url bt to h st = (o, st', ev) ->
  async_playwright (attempt w d) = returns tt ->
  (forall c, fs st !! (getcwd w ++ ["downloads"%string]) <> Some (File c)) ->
  launch (attempt w d) (browser_class_of bt) h = raises msg ->
  o = Normal (false, Some ("Error: " +:+ msg)) /\
  ev = [(d, Call h); (d, AsyncPlaywright);
        (d, Makedirs (getcwd w ++ ["downloads"%string]));
        (d, Launch (browser_class_of bt) h)] /\
  fs st' = ensure_dir (getcwd w ++ ["downloads"%string]) (fs st).
Proof.
  intros Hfuel Hrun Ha Hf Hl. destruct fuel as [|n]; [lia |]. destruct st as [f b].
  cbn [fs] in *.
  assert (H : wpf (scrape_and_download (S n) w d url bt to h) f b
                (fun o f' ev =>
                   o = Normal (false, Some ("Error: " +:+ msg)) /\
                   ev = [(d, Call h); (d, AsyncPlaywright);
                         (d, Makedirs (getcwd w ++ ["downloads"%string]));
                         (d, Launch (browser_class_of bt) h)] /\
                   f' = ensure_dir (getcwd w ++ ["downloads"%string]) f)).
  { rewrite scrape_and_download_S. apply wpf_call.
    eapply wp_conseq; [apply (body_launch_fails _ w d url bt to h f msg Hl Ha Hf) |].
    intros [[]|r|e|] st1 ev1 (Ho & He & Hs); try discriminate Ho.
    injection Ho as ->. repeat split; assumption. }
  exact (wpf_run _ _ _ _ _ _ _ H Hrun).
Qed.

Lemma launch_failure_closes_nothing_witness :
  run_no_browser.1.1 = Normal (false, Some "Error: Executable doesn't exist"%string) /\
  run_no_browser.2 =
    [(0%nat, Call true); (0%nat, AsyncPlaywright);
     (0%nat, Makedirs (home ++ ["downloads"%string]));
     (0%nat, Launch chromium true)] /\
  fs run_no_browser.1.2 = ensure_dir (home ++ ["downloads"%string]) ∅.
Proof.
  apply (launch_failure_closes_nothing 2 w_no_browser 0 url0 "chromium" 60 true start).
  - lia.
  - apply run_eta.
  - reflexivity.
  - intros c. vm_compute. discriminate.
  - reflexivity.
Defined.

(** X3.  The failure message of line 148, "Download failed or timed out",
    is never the result of a call: the path the download task returns is
    never empty, and a timeout leaves through the [except] clause. *)
Theorem timed_out_message_is_dead (fuel : nat) (w : world) (d : nat) (url bt : string)
    (to : Z) (h : bool) (st : state) :
  (scrape_and_download fuel w d url bt to h st).1.1 <>
    Normal (false, Some "Download failed or timed out"%string).
Proof.
  destruct st as [f b].
  destruct (scrape_and_download fuel w d url bt to h {| fs := f; browser := b |})
    as [[o st'] ev] eqn:Hrun.
  exact (wpf_run _ _ _ _ _ _ _
           (scrape_and_download_never_timed_out_message fuel w d url bt to h f b) Hrun).
Qed.

Lemma count_small_Getsize (d : nat) (ev : list event) :
  (0 < count (at_depth d is_small_Getsize) ev)%nat <->
  exists p size, In (d, Getsize p size) ev /\ size < 100.
Proof.
  split.
  - induction ev as [|[k a] ev IH]; cbn [count]; [lia |].
    destruct (at_depth d is_small_Getsize (k, a)) eqn:E.
    + intros _. unfold at_depth in E. cbn [fst snd] in E.
      apply andb_prop in E as [E1 E2]. apply Nat.eqb_eq in E2. subst k.
      destruct a; try discriminate E1. cbn in E1. apply Z.ltb_lt in E1.
      eexists _, _. split; [left; reflexivity | exact E1].
    + intros H. destruct (IH ltac:(lia)) as (p & size & Hin & Hs).
      exists p, size. split; [right; exact Hin | exact Hs].
  - intros (p & size & Hin & Hs). apply (In_count _ _ _ _ Hin).
    cbn. apply Z.ltb_lt. exact Hs.
Qed.

(** X4.  A headless call makes the retry exactly when its own size check
    has seen fewer than 100 bytes: the calls are then the headless one and
    one visible one, and in no other case is there a second call. *)
Theorem retried_iff_small (fuel : nat) (w : world) (d : nat) (url bt : string)
    (to : Z) (st : state) o st' ev :
  (2 <= fuel)%nat ->
  scrape_and_download fuel w d url bt to true st = (o, st', ev) ->
  (exists p size, In (d, Getsize p size) ev /\ size < 100) <->
  calls ev = [(d, Call true); (S d, Call false)].
Proof.
  intros Hfuel Hrun. destruct fuel as [|[|n]]; try lia. destruct st as [f b].
  rewrite <- count_small_Getsize.
  exact (wpf_run _ _ _ _ _ _ _ (scrape_and_download_small_retried n w d url bt to f b) Hrun).
Qed.

Lemma retried_iff_small_witness :
  (exists p size, In (0%nat, Getsize p size) run_small.2 /\ size < 100) <->
  calls run_small.2 = [(0%nat, Call true); (1%nat, Call false)].
Proof.
  apply (retried_iff_small 2 w_small 0 url0 "chromium" 60 start run_small.1.1 run_small.1.2).
  - lia.
  - apply run_eta.
Defined.

Lemma browser_class_eqb_eq (c c' : browser_class) : browser_class_eqb c c' = true -> c = c'.
Proof. destruct c, c'; intros H; first [reflexivity | discriminate H]. Qed.

(** X5.  The retry repeats the request: every launch, every navigation and
    every wait of a run, at whatever depth, is made with the browser, the
    URL and the timeout of the call; and only the call itself may be
    headless, any deeper one is visible. *)
Theorem retry_repeats_the_request (fuel : nat) (w : world) (d : nat) (url bt : string)
    (to : Z) (h : bool) (st : state) o st' ev (k : nat) (a : action) :
  scrape_and_download fuel w d url bt to h st = (o, st', ev) ->
  In (k, a) ev ->
  match a with
  | Call hh => hh = (if Nat.eqb k d then h else false)
  | Launch c hh => c = browser_class_of bt /\ hh = (if Nat.eqb k d then h else false)
  | Goto u => u = url
  | WaitFor t => t = to
  | _ => True
  end.
Proof.
  intros Hrun Hin. destruct st as [f b].
  pose proof (wpf_run _ _ _ _ _ _ _ (scrape_and_download_request fuel w d url bt to h f b) Hrun)
    as H.
  pose proof (proj1 (List.Forall_forall _ _) H _ Hin) as H'. clear H. revert H'.
  unfold on_request. cbn [fst snd]. destruct a; try (intros _; exact I).
  - intros H. apply Bool.eqb_prop in H. exact H.
  - intros H. apply andb_prop in H as [H1 H2].
    split; [apply browser_class_eqb_eq, H1 | apply Bool.eqb_prop, H2].
  - intros H. apply String.eqb_eq in H. exact H.
  - intros H. apply Z.eqb_eq in H. exact H.
Qed.

Lemma retry_repeats_the_request_witness :
  chromium = browser_class_of "chromium" /\ false = false.
Proof.
  apply (retry_repeats_the_request 2 w_small 0 url0 "chromium" 60 true start
           run_small.1.1 run_small.1.2 run_small.2 1%nat (Launch chromium false)).
  - apply run_eta.
  - in_trace.
Defined.



(** *** The result of the retry is the result *)







(** ** File names *)

Lemma append_nil (t : string) : EmptyString +:+ t = t.
Proof. reflexivity. Qed.

Lemma append_cons (c : Ascii.ascii) (s t : string) : String c s +:+ t = String c (s +:+ t).
Proof. reflexivity. Qed.

Lemma basename_str_no_slash (s : string) : contains_slash (basename_str s) = false.
Proof.
  induction s as [|c s IH]; [reflexivity |].
  cbn [basename_str]. destruct (contains_slash s) eqn:Es; [exact IH |].
  destruct (Ascii.eqb c slash) eqn:Ec; [exact Es |].
  cbn [contains_slash]. rewrite Ec, Es. reflexivity.
Qed.

Lemma contains_slash_app (s t : string) :
  contains_slash (s +:+ t) = contains_slash s || contains_slash t.
Proof.
  induction s as [|c s IH]; [reflexivity |].
  rewrite append_cons. cbn [contains_slash]. rewrite IH. apply orb_assoc.
Qed.

Lemma endswith_app (s suffix : string) : endswith (s +:+ suffix) suffix = true.
Proof.
  induction s as [|c s IH].
  - rewrite append_nil. destruct suffix; cbn [endswith]; rewrite String.eqb_refl; reflexivity.
  - rewrite append_cons. cbn [endswith]. rewrite IH. apply orb_true_r.
Qed.

Lemma endswith_nonempty (s suffix : string) :
  endswith s suffix = true -> nonempty_str suffix = true -> nonempty_str s = true.
Proof.
  destruct s as [|c s]; [| reflexivity].
  cbn [endswith]. rewrite orb_false_r. intros H. apply String.eqb_eq in H. subst suffix.
  intros H. exact H.
Qed.

Lemma rfind_app (c : Ascii.ascii) (s t : string) :
  rfind c (s +:+ t) =
    match rfind c t with
    | Some i => Some (String.length s + i)%nat
    | None => rfind c s
    end.
Proof.
  induction s as [|a s IH]; rewrite ?append_nil, ?append_cons; cbn [rfind String.length].
  - destruct (rfind c t); reflexivity.
  - rewrite IH. destruct (rfind c t); reflexivity.
Qed.

Lemma rfind_none_no_slash (s : string) : contains_slash s = false -> rfind slash s = None.
Proof.
  induction s as [|a s IH]; [reflexivity |].
  cbn [contains_slash rfind]. intros H. apply orb_false_elim in H as [Ha Hs].
  rewrite (IH Hs), Ha. reflexivity.
Qed.

Lemma substring_app_l (s t : string) : String.substring 0 (String.length s) (s +:+ t) = s.
Proof.
  induction s as [|a s IH]; rewrite ?append_nil, ?append_cons;
    cbn [String.length String.substring].
  - destruct t; reflexivity.
  - rewrite IH. reflexivity.
Qed.

(** X7.  The name that both main functions guess for the download,
    [os.path.basename(url.rstrip('/')) + ".csv"], is a single file name
    whatever the URL: it contains no slash, it is not empty, and it has the
    suffix that the search for downloaded files asks for. *)
Theorem guessed_filename_is_a_name (url : string) :
  contains_slash (basename_str (rstrip_slash url) +:+ ".csv") = false /\
  nonempty_str (basename_str (rstrip_slash url) +:+ ".csv") = true /\
  endswith (basename_str (rstrip_slash url) +:+ ".csv") ".csv" = true.
Proof.
  split; [| split].
  - rewrite contains_slash_app, basename_str_no_slash. reflexivity.
  - apply (endswith_nonempty _ ".csv"); [apply endswith_app | reflexivity].
  - apply endswith_app.
Qed.

(** X8.  [os.path.splitext] undoes the suffix: for a file name
    [stem + ".csv"] whose stem has no slash and is not made of dots only,
    the root is the stem, so that the archive copy of [stem.csv] is named
    [stem_<date>.csv].  A name whose stem is empty or all dots (a hidden
    file [.csv]) is its own root. *)
Theorem splitext_root_csv (stem : string) :
  contains_slash stem = false ->
  splitext_root (stem +:+ ".csv") = if all_dots stem then stem +:+ ".csv" else stem.
Proof.
  intros Hs. unfold splitext_root.
  rewrite !rfind_app.
  change (rfind slash ".csv") with (@None nat).
  change (rfind dot ".csv") with (Some 0%nat).
  cbv iota. rewrite (rfind_none_no_slash _ Hs).
  rewrite Nat.add_0_r, Nat.sub_0_r. cbn [Nat.leb].
  rewrite substring_app_l. reflexivity.
Qed.

Lemma splitext_root_csv_witness :
  splitext_root ("maine-2025-priority-bills" +:+ ".csv") =
    if all_dots "maine-2025-priority-bills" then "maine-2025-priority-bills" +:+ ".csv"
    else "maine-2025-priority-bills"%string.
Proof.
  apply (splitext_root_csv "maine-2025-priority-bills"). reflexivity.
Defined.

(** ** [setup_download_handler] *)



(** ** [verify_file_content] *)

Lemma wp_readlines (d : nat) (o : os_env) (p : path) (f : filesystem) (b : option unit)
    (Q : outcome nat -> state -> list event -> Prop) :
  (forall c, f !! p = Some (File c) -> decode_error o c = None ->
     Q (Normal (count_lines c)) {| fs := f; browser := b |} [(d, ReadFile p)]) ->
  ((forall c, f !! p = Some (File c) -> decode_error o c <> None) ->
   forall msg, Q (Raising (Exception msg)) {| fs := f; browser := b |} [(d, ReadFile p)]) ->
  wp (readlines d o p) {| fs := f; browser := b |} Q.
Proof.
  intros H1 H2. unfold wp, readlines, read_file, bind, emit, get_fs, ret, raise, oserror. cbn.
  destruct (f !! p) as [[|c]|] eqn:E; cbn.
  - apply H2. intros c Hc. discriminate Hc.
  - destruct (decode_error o c) as [msg|] eqn:Ed; cbn.
    + apply H2. intros c' Hc. injection Hc as <-. rewrite Ed. discriminate.
    + apply (H1 c eq_refl Ed).
  - apply H2. intros c Hc. discriminate Hc.
Qed.

Lemma verify_file_content_spec (d : nat) (o : os_env) (p : path) (f : filesystem)
    (b : option unit) :
  wp (verify_file_content d o p) {| fs := f; browser := b |}
    (fun o' st' ev =>
       st' = {| fs := f; browser := b |} /\ ev = [(d, ReadFile p)] /\
       exists ok, o' = Normal ok /\
         (ok = true <->
          exists c, f !! p = Some (File c) /\ decode_error o c = None /\
                    (2 <= count_lines c)%nat)).
Proof.
  unfold verify_file_content. apply wp_try_except. apply wp_bind. apply wp_readlines.
  - intros c Hc Hd. destruct (count_lines c <=? 1)%nat eqn:El.
    + apply Nat.leb_le in El. apply wp_ret. repeat split. exists false. split; [reflexivity |].
      split; [discriminate |]. intros (c' & Hc' & _ & Hl). exfalso.
      rewrite Hc in Hc'. injection Hc' as <-. lia.
    + apply Nat.leb_gt in El. apply wp_ret. repeat split. exists true. split; [reflexivity |].
      split; [| reflexivity]. intros _. exists c. repeat split; [exact Hc | exact Hd | lia].
  - intros Hbad msg. apply wp_ret. repeat split. exists false. split; [reflexivity |].
    split; [discriminate |]. intros (c & Hc & Hd & _). destruct (Hbad c Hc Hd).
Qed.

Lemma verify_file_content_run (d : nat) (o : os_env) (p : path) (st : state) :
  exists ok,
    verify_file_content d o p st = (Normal ok, st, [(d, ReadFile p)]) /\
    (ok = true <->
     exists c, fs st !! p = Some (File c) /\ decode_error o c = None /\
               (2 <= count_lines c)%nat).
Proof.
  destruct st as [f b].
  destruct (verify_file_content d o p {| fs := f; browser := b |}) as [[o' st'] ev] eqn:Hrun.
  destruct (wp_run _ _ _ _ _ _ (verify_file_content_spec d o p f b) Hrun)
    as (-> & -> & ok & -> & Hok).
  exists ok. split; [reflexivity | exact Hok].
Qed.

(** X10.  [verify_file_content] never raises and never changes anything: it
    opens the file once and gives a verdict, which is [True] exactly when
    the file is there, decodes as text and has at least two lines; a
    missing file, a directory or undecodable bytes give [False]. *)
Theorem verify_file_content_gives_a_verdict (d : nat) (o : os_env) (p : path) (st : state) :
  exists ok,
    verify_file_content d o p st = (Normal ok, st, [(d, ReadFile p)]) /\
    (ok = true <->
     exists c, fs st !! p = Some (File c) /\ decode_error o c = None /\
               (2 <= count_lines c)%nat).
Proof. apply verify_file_content_run. Qed.

Lemma count_lines_pos (bs : list Byte.byte) : bs <> [] -> (1 <= count_lines bs)%nat.
Proof.
  induction bs as [|b rest IH]; [congruence |]. intros _. cbn [count_lines].
  destruct (Byte.eqb b Byte.x0a); [lia |].
  destruct (Byte.eqb b Byte.x0d).
  - destruct rest as [|b' rest']; [lia |]. destruct (Byte.eqb b' Byte.x0a); lia.
  - destruct rest as [|b' rest']; [lia |]. apply IH. discriminate.
Qed.

Lemma count_lines_header (header rest : list Byte.byte) :
  forallb (fun b => negb (is_eol b)) header = true ->
  count_lines (header ++ Byte.x0a :: rest) = S (count_lines rest).
Proof.
  induction header as [|b header IH]; [reflexivity |].
  cbn [forallb]. intros H. apply andb_prop in H as [Hb Hh].
  unfold is_eol in Hb. apply negb_true_iff, orb_false_elim in Hb as [Ha Hd].
  cbn [app count_lines]. rewrite Ha, Hd.
  specialize (IH Hh).
  destruct (header ++ Byte.x0a :: rest) eqn:E; [destruct header; discriminate E |].
  exact IH.
Qed.

(** X11.  More than a header row: for a file that decodes and whose first
    line, ended by a line feed, is the header, the verdict is [True] exactly
    when something follows that line.  A header alone is rejected. *)
Theorem header_alone_is_rejected (d : nat) (o : os_env) (p : path) (st : state)
    (header rest : list Byte.byte) :
  forallb (fun b => negb (is_eol b)) header = true ->
  fs st !! p = Some (File (header ++ Byte.x0a :: rest)) ->
  decode_error o (header ++ Byte.x0a :: rest) = None ->
  verify_file_content d o p st =
    (Normal (match rest with [] => false | _ :: _ => true end), st, [(d, ReadFile p)]).
Proof.
  intros Hh Hf Hd.
  destruct (verify_file_content_run d o p st) as (ok & -> & Hok).
  f_equal. f_equal. f_equal.
  destruct rest as [|b rest].
  - destruct ok; [| reflexivity]. destruct (proj1 Hok eq_refl) as (c & Hc & _ & Hl).
    rewrite Hf in Hc. injection Hc as <-. rewrite (count_lines_header _ _ Hh) in Hl.
    cbn in Hl. lia.
  - apply Hok. eexists. split; [exact Hf |]. split; [exact Hd |].
    rewrite (count_lines_header _ _ Hh).
    pose proof (count_lines_pos (b :: rest) ltac:(discriminate)). lia.
Qed.

Lemma header_alone_is_rejected_witness :
  verify_file_content 0 os_plain (home ++ ["data.csv"%string])
    {| fs := fs_header_only; browser := None |} =
    (Normal false, {| fs := fs_header_only; browser := None |},
     [(0%nat, ReadFile (home ++ ["data.csv"%string]))]).
Proof.
  apply (header_alone_is_rejected 0 os_plain (home ++ ["data.csv"%string])
           {| fs := fs_header_only; browser := None |}
           [Byte.x69; Byte.x64; Byte.x2c; Byte.x62; Byte.x69; Byte.x6c; Byte.x6c] []).
  - reflexivity.
  - vm_compute. reflexivity.
  - reflexivity.
Defined.

(** ** [main_async] *)

Lemma wp_get_fs (st : state) (Q : outcome filesystem -> state -> list event -> Prop) :
  Q (Normal (fs st)) st [] -> wp get_fs st Q.
Proof. exact (fun H => H). Qed.

(** What the callers need to know of a call. *)
Lemma scrape_and_download_summary (n : nat) (w : world) (d : nat) (url bt : string)
    (to : Z) (h : bool) (f : filesystem) (b : option unit) :
  wpf (scrape_and_download (S (S n)) w d url bt to h) f b
    (fun o f' ev =>
       (o <> OutOfFuel /\
        (calls ev = [(d, Call h)] \/
         h = true /\ calls ev = [(d, Call true); (S d, Call false)])) /\
       (o = Normal (true, None) -> copied (getcwd w) f') /\
       match o with Normal r => consistent r | _ => True end /\
       dirs_kept f f' /\
       same_outside (getcwd w) f f').
Proof.
  apply wpf_and; [apply scrape_and_download_calls |].
  apply wpf_and; [apply scrape_and_download_copied |].
  apply wpf_and; [apply scrape_and_download_consistent |].
  apply wpf_and; [apply scrape_and_download_dirs_kept | apply scrape_and_download_outside].
Qed.

Lemma consistent_true (e : option string) : consistent (true, e) -> e = None.
Proof. intros [H _]. exact (H eq_refl). Qed.


Ltac wp_caller :=
  repeat first
    [ progress wp_go
    | match goal with
      | |- wp get_fs _ _ => apply wp_get_fs; cbv beta iota zeta
      | |- wp (verify_file_content _ _ _) _ _ =>
          eapply wp_conseq; [apply verify_file_content_spec |];
          let ok := fresh "ok" in
          intros ? ? ? (-> & -> & ok & -> & ?); destruct ok; cbv beta iota; cbn [negb]
      | |- wp (scrape_and_download (S (S _)) _ _ _ _ _ _) {| fs := _; browser := _ |} _ =>
          eapply wp_of_wpf; [apply scrape_and_download_summary |];
          let o := fresh "o" in
          let Hr := fresh "Hr" in
          let Hf := fresh "Hf" in
          let Hc := fresh "Hc" in
          intros o ? ? Hr ((Hf & Hc) & ? & ? & ? & ?);
          destruct o as [[[] ?]|?|?|];
          [ | | destruct (Hr _ eq_refl) | | destruct (Hf eq_refl) ];
          clear Hr Hf; destruct Hc as [Hc|[? Hc]]; cbv beta iota; cbn [fst andb]
      end ].

Ltac sessions_side :=
  split;
  [ unfold sessions; calls_tac; reflexivity
  | split; intros E; first [discriminate E | reflexivity | split; reflexivity] ].

Ltac caller_absurd :=
  match goal with
  | H : (_, _).1 = _ |- _ => cbn [fst] in H; discriminate H
  | H : false = true |- _ => discriminate H
  end.

Ltac caller_result :=
  first [ exact I
        | reflexivity
        | match goal with
          | H : Normal (true, ?e) = _ -> copied _ ?f, H0 : consistent (true, ?e)
            |- copied _ ?f =>
              apply H; rewrite (consistent_true _ H0); reflexivity
          end ].

Ltac caller_sessions :=
  first [ solve [exists false, false; sessions_side]
        | solve [exists true, false; sessions_side]
        | solve [exists false, true; sessions_side]
        | solve [exists true, true; sessions_side] ].

Ltac caller_leaf :=
  first [ solve [caller_absurd]
        | split; [caller_sessions | caller_result] ].

Lemma main_async_spec (n : nat) (w : world) (o : os_env) (a : args) (f : filesystem)
    (b : option unit) :
  wp (main_async (S (S n)) w o a) {| fs := f; browser := b |}
    (fun o' st' ev =>
       (exists retry second : bool,
          calls ev = sessions (negb (args_no_headless a)) retry second /\
          (retry = true -> args_no_headless a = false) /\
          (second = true -> args_verify_content a = true /\ args_no_headless a = false)) /\
       match o' with
       | Normal (Returns None) => copied (getcwd w) (fs st')
       | Normal (Returns (Some _)) => False
       | Normal (SystemExit code) => code = 1
       | Raising _ => True
       | _ => False
       end).
Proof.
  unfold main_async.
  destruct (args_no_headless a) eqn:Eh, (args_verify_content a) eqn:Ev; cbn [negb andb];
    wp_caller.
  all: caller_leaf.
Qed.

(** X12.  A run of [main_async] opens at most three browser sessions: the
    first call, the retry that call makes, and the second call that a failed
    verification asks for.  A session other than the first is never
    headless; there is a retry only when the first call was headless, and a
    second call only with [--verify-content] and without [--no-headless]. *)
Theorem main_async_sessions (fuel : nat) (w : world) (o : os_env) (a : args) (st : state)
    o' st' ev :
  (2 <= fuel)%nat ->
  main_async fuel w o a st = (o', st', ev) ->
  exists retry second : bool,
    calls ev = sessions (negb (args_no_headless a)) retry second /\
    (retry = true -> args_no_headless a = false) /\
    (second = true -> args_verify_content a = true /\ args_no_headless a = false).
Proof.
  intros Hfuel Hrun. destruct fuel as [|[|n]]; try lia. destruct st as [f b].
  exact (proj1 (wp_run _ _ _ _ _ _ (main_async_spec n w o a f b) Hrun)).
Qed.

Lemma main_async_sessions_witness :
  exists retry second : bool,
    calls run_main_async.2 = sessions (negb (args_no_headless args_verify)) retry second /\
    (retry = true -> args_no_headless args_verify = false) /\
    (second = true ->
     args_verify_content args_verify = true /\ args_no_headless args_verify = false).
Proof.
  apply (main_async_sessions 2 w_small os_plain args_verify start
           run_main_async.1.1 run_main_async.1.2).
  - lia.
  - apply run_eta.
Defined.




(** ** [run_scraper.main] *)

Lemma wp_count_rows (d : nat) (o : os_env) (p : path) (f : filesystem) (b : option unit)
    (Q : outcome nat -> state -> list event -> Prop) :
  (forall c n, f !! p = Some (File c) -> csv_rows o c = returns n ->
     Q (Normal n) {| fs := f; browser := b |} [(d, ReadFile p)]) ->
  (forall msg, Q (Raising (Exception msg)) {| fs := f; browser := b |} [(d, ReadFile p)]) ->
  wp (count_rows d o p) {| fs := f; browser := b |} Q.
Proof.
  intros H1 H2. unfold wp, count_rows, read_file, bind, emit, get_fs, ret, raise, oserror. cbn.
  destruct (f !! p) as [[|c]|] eqn:E; cbn; [apply H2 | | apply H2].
  destruct (csv_rows o c) as [n|msg] eqn:Er; cbn; [apply (H1 c n eq_refl Er) | apply H2].
Qed.

Lemma wp_open_wb_in (d : nat) (p : path) (x : string) (f : filesystem) (b : option unit)
    (Q : outcome unit -> state -> list event -> Prop) :
  (f !! p = Some Dir -> wp (open_wb d (p ++ [x])) {| fs := f; browser := b |} Q) ->
  (f !! p <> Some Dir ->
   forall msg, Q (Raising (Exception msg)) {| fs := f; browser := b |}
                 [(d, OpenWrite (p ++ [x]))]) ->
  wp (open_wb_in d (p ++ [x])) {| fs := f; browser := b |} Q.
Proof.
  intros H1 H2. unfold open_wb_in. unfold wp at 1, bind, get_fs. cbn [fs].
  rewrite dirname_snoc.
  destruct (f !! p) as [[|c]|] eqn:E.
  - specialize (H1 eq_refl). unfold wp in H1.
    destruct (open_wb d (p ++ [x]) {| fs := f; browser := b |}) as [[o st'] ev]. exact H1.
  - cbn. apply H2. discriminate.
  - cbn. apply H2. discriminate.
Qed.

Lemma snoc_ne_snoc2 (cwd : path) (x y z : string) : cwd ++ [x] <> (cwd ++ [y]) ++ [z].
Proof.
  intros E. apply (f_equal (@length string)) in E.
  rewrite !length_app in E. cbn in E. lia.
Qed.

Lemma archive_ne_downloads (cwd : path) (x y : string) :
  (cwd ++ ["archive"%string]) ++ [x] <> (cwd ++ ["downloads"%string]) ++ [y].
Proof.
  intros E. apply app_inj_tail in E as [E _]. apply app_inj_tail in E as [_ E].
  discriminate E.
Qed.

Lemma archive_same_of_outside (cwd : path) (f f' : filesystem) :
  same_outside cwd f f' -> archive_same cwd f f'.
Proof.
  intros H x. apply H.
  - intros y E. symmetry in E. exact (snoc_ne_snoc2 _ _ _ _ E).
  - intros y. apply archive_ne_downloads.
Qed.

Lemma downloaded_files_head (o : os_env) (cwd : path) (f : filesystem) (name : string)
    (l : list string) :
  downloaded_files o cwd f = name :: l ->
  In name (scandir o) /\ endswith name ".csv" = true.
Proof.
  intros E. assert (Hin : In name (downloaded_files o cwd f)) by (rewrite E; left; reflexivity).
  unfold downloaded_files, listdir in Hin.
  apply List.filter_In in Hin as [Hin Hc]. apply List.filter_In in Hin as [Hin _].
  apply andb_prop in Hc as [Hc _]. split; assumption.
Qed.

Lemma archived_intro (o : os_env) (cwd : path) (guess name : string) (c : list Byte.byte)
    (f0 f1 : filesystem) (x : string) :
  x = splitext_root name +:+ "_" +:+ today o +:+ ".csv" ->
  (name = guess \/ exists l, downloaded_files o cwd f1 = name :: l) ->
  f1 !! (cwd ++ [name]) = Some (File c) ->
  (forall c', f0 !! (cwd ++ ["logs"%string]) <> Some (File c')) ->
  (forall c', ensure_dir (cwd ++ ["logs"%string]) f0 !! (cwd ++ ["archive"%string]) <>
              Some (File c')) ->
  dirs_kept (ensure_dir (cwd ++ ["archive"%string]) (ensure_dir (cwd ++ ["logs"%string]) f0))
    f1 ->
  archived o cwd guess
    (<[(cwd ++ ["archive"%string]) ++ [x] := File c]>
       (<[(cwd ++ ["archive"%string]) ++ [x] := File []]> f1)).
Proof.
  intros -> Hn Hc Hl Ha Hk. exists name, c.
  split; [| split; [| split; [| split]]].
  - destruct Hn as [Hn|[l Hn]]; [left; exact Hn | right; exact (downloaded_files_head _ _ _ _ _ Hn)].
  - rewrite !lookup_insert_ne by (apply not_eq_sym, snoc_ne_snoc2). exact Hc.
  - apply fs_lookup_insert.
  - rewrite !lookup_insert_ne by (apply not_eq_sym, snoc_ne_snoc2).
    apply Hk. unfold ensure_dir at 1.
    pose proof (ensure_dir_lookup _ _ Hl) as Hd.
    destruct (ensure_dir (cwd ++ ["logs"%string]) f0 !! (cwd ++ ["archive"%string])) eqn:E;
      [exact Hd |].
    rewrite lookup_insert_ne; [exact Hd |].
    intros E'. apply app_inj_tail in E' as [_ E']. discriminate E'.
  - rewrite !lookup_insert_ne by (apply not_eq_sym, snoc_ne_snoc2).
    apply Hk. apply ensure_dir_lookup. exact Ha.
Qed.

Lemma archive_dir_kept (cwd : path) (f0 f1 : filesystem) :
  (forall c', ensure_dir (cwd ++ ["logs"%string]) f0 !! (cwd ++ ["archive"%string]) <>
              Some (File c')) ->
  dirs_kept (ensure_dir (cwd ++ ["archive"%string]) (ensure_dir (cwd ++ ["logs"%string]) f0))
    f1 ->
  f1 !! (cwd ++ ["archive"%string]) = Some Dir.
Proof. intros Ha Hk. apply Hk. apply ensure_dir_lookup. exact Ha. Qed.

Ltac wp_main :=
  repeat first
    [ match goal with
      | |- wp get_fs _ _ => apply wp_get_fs; cbv beta iota zeta
      | |- wp (count_rows _ _ _) _ _ => apply wp_count_rows; [intros ? ? ? ? | intros ?]
      | |- wp (read_file _ _) _ _ => eapply wp_read_file_known; [eassumption |]
      | |- wp (open_wb_in _ (_ ++ [_])) _ _ => apply wp_open_wb_in; [intros ? | intros ? ?]
      | |- wp (makedirs _ _) _ _ => apply wp_makedirs; [intros ? ? | intros ?]
      | |- wp (scrape_and_download (S (S _)) _ _ _ _ _ _) {| fs := _; browser := _ |} _ =>
          eapply wp_of_wpf; [apply scrape_and_download_summary |];
          let o := fresh "o" in
          let Hr := fresh "Hr" in
          let Hf := fresh "Hf" in
          intros o ? ? Hr ((Hf & _) & ? & ? & ? & ?);
          destruct o as [[[] ?]|?|?|];
          [ | | destruct (Hr _ eq_refl) | | destruct (Hf eq_refl) ];
          clear Hr Hf; cbv beta iota; cbn [fst andb]
      end
    | progress wp_go ].

Ltac archive_same_tac := apply archive_same_of_outside; outside_tac.

Ltac main_leaf :=
  first
    [ solve [left; archive_same_tac]
    | solve [split; [reflexivity | archive_same_tac]]
    | solve [right; split; [reflexivity | archive_same_tac]]
    | solve [right; eauto]
    | left; split; [reflexivity |];
      eapply archived_intro; [reflexivity | | eassumption | eassumption | eassumption | eassumption];
      cbn [fs] in *;
      match goal with
      | E : (if ?c then _ else _) = Some _ |- _ =>
          destruct c;
          [ match type of E with
            | match ?l with _ => _ end = _ =>
                destruct l eqn:?; [discriminate E |]; injection E as <-; right; eauto
            end
          | injection E as <-; left; reflexivity ]
      end ].

Lemma main_spec (n : nat) (w : world) (o : os_env) (f : filesystem) (b : option unit) :
  wp (run_scraper.main (S (S n)) w o) {| fs := f; browser := b |}
    (fun o' st' _ =>
       match o' with
       | Normal (Returns (Some code)) =>
           code = 0 /\
           archived o (getcwd w) (basename_str (rstrip_slash config.QUORUM_URL) +:+ ".csv")
             (fs st') \/
           code = 1 /\ archive_same (getcwd w) f (fs st')
       | Normal (Returns None) => False
       | Normal (SystemExit code) => code = 1 /\ archive_same (getcwd w) f (fs st')
       | Raising e =>
           archive_same (getcwd w) f (fs st') \/
           exists k msg, dest_write (attempt w 0) = write_fails k msg /\ e = Exception msg
       | _ => False
       end).
Proof.
  unfold run_scraper.main. wp_main; main_leaf.
Qed.

(** X14.  When the script ends with exit status 0, the archive holds a full
    copy, named [root_date.csv], of a file of the working directory, and
    that file is the one with the guessed name or a listed one with the
    suffix [.csv]; the [logs] and [archive] directories exist.  The
    directory made before the call is still there when the copy is
    written, whatever the call did. *)
Theorem exit_0_means_archived (fuel : nat) (w : world) (o : os_env) (st : state)
    (e : ending) st' ev :
  (2 <= fuel)%nat ->
  run_scraper.main fuel w o st = (Normal e, st', ev) ->
  run_scraper.exit_status e = 0 ->
  archived o (getcwd w) (basename_str (rstrip_slash config.QUORUM_URL) +:+ ".csv") (fs st').
Proof.
  intros Hfuel Hrun He. destruct fuel as [|[|n]]; try lia. destruct st as [f b].
  pose proof (wp_run _ _ _ _ _ _ (main_spec n w o f b) Hrun) as H. cbv beta iota in H.
  destruct e as [[code|]|code]; cbn [run_scraper.exit_status] in He.
  - destruct H as [[_ H]|[H _]]; [exact H | lia].
  - destruct H.
  - destruct H as [H _]. lia.
Qed.

Lemma exit_0_means_archived_witness :
  archived os_plain (getcwd w_good)
    (basename_str (rstrip_slash config.QUORUM_URL) +:+ ".csv") (fs run_main.1.2).
Proof.
  apply (exit_0_means_archived 2 w_good os_plain {| fs := fs_stale; browser := None |}
           (Returns (Some 0)) run_main.1.2 run_main.2).
  - lia.
  - vm_compute. reflexivity.
  - reflexivity.
Defined.


